(** * Simple Notes API: the note persistence and API contract layer

    A shallow embedding of [notes_backend/src/api/main.py]: a FastAPI service
    whose handlers run SQL statements against one SQLite table,

      notes(id INTEGER PRIMARY KEY AUTOINCREMENT, title, content,
            created_at DEFAULT CURRENT_TIMESTAMP,
            updated_at DEFAULT CURRENT_TIMESTAMP).

    The embedding has three layers, as the program has:
    - [Sqlite]: the table as the list of its rows together with the
      [sqlite_sequence] counter of AUTOINCREMENT, and the statements the
      handlers execute (parameter binding, SELECT, INSERT, UPDATE, DELETE,
      ORDER BY ... LIMIT ... OFFSET);
    - the pydantic models ([NoteBase], [NoteCreate], [NoteUpdate], [Note]) and
      the handlers ([get_note], [list_notes], [create_note], [update_note],
      [delete_note]), written as state passing over the database with
      Python exceptions as an error result;
    - [app]: what FastAPI does around a handler (request validation, status
      codes, unhandled exceptions as 500), and [run], the service processing a
      sequence of requests.

    Time.  CURRENT_TIMESTAMP is the UTC wall clock rendered as
    'YYYY-MM-DD HH:MM:SS'; the text order of such values is their
    chronological order and [datetime(...)] maps them to themselves.  They are
    modelled by the integer count of seconds.  Every request carries the clock
    reading [now] that its statement observes; one statement reads the clock
    once.

    Text.  A [string] stands for a Python [str]; its [String.length] is the
    number of characters pydantic counts. *)

From Stdlib Require Import ZArith Lia String List.
From stdpp Require Import base decidable option list numbers sorting gmap.

Local Open Scope Z_scope.

(** ** Exceptions and results *)

Inductive exception : Type :=
| HTTPException (status_code : Z) (detail : string)
| RequestValidationError   (* FastAPI: the request does not fit the declared parameters *)
| ValidationError          (* pydantic: a model constructor got an invalid field *)
| TypeError                (* subscripting [None] where a row was expected *)
| OverflowError            (* sqlite3: Python int too large to convert to SQLite INTEGER *)
| OperationalError.        (* sqlite3: database or disk is full *)

Inductive result (A : Type) : Type :=
| Return (a : A)
| Raise (e : exception).
Arguments Return {A} a.
Arguments Raise {A} e.

(** Sequencing: an exception cuts the rest short.  With these instances the
    handlers read [x ← m; k]. *)
#[global] Instance result_ret : MRet result := fun A a => Return a.
#[global] Instance result_bind : MBind result := fun A B k m =>
  match m with
  | Return a => k a
  | Raise e => Raise e
  end.

(** A list comprehension whose body may raise: the first exception wins. *)
Fixpoint comprehension {A B : Type} (f : A -> result B) (l : list A) : result (list B) :=
  match l with
  | [] => Return []
  | a :: l' => b ← f a; bs ← comprehension f l'; Return (b :: bs)
  end.

Definition HTTP_200_OK : Z := 200.
Definition HTTP_201_CREATED : Z := 201.
Definition HTTP_204_NO_CONTENT : Z := 204.
Definition HTTP_400_BAD_REQUEST : Z := 400.
Definition HTTP_404_NOT_FOUND : Z := 404.
Definition HTTP_422_UNPROCESSABLE_ENTITY : Z := 422.
Definition HTTP_500_INTERNAL_SERVER_ERROR : Z := 500.

(** ** The storage layer *)

Module Sqlite.

(** One row of [notes], with the five columns every SELECT of the program
    names. *)
Record Row : Type := mkRow {
  row_id : Z;
  row_title : string;
  row_content : string;
  row_created_at : Z;
  row_updated_at : Z
}.

(** The database file: the rows of [notes] in insertion order and the entry
    of [notes] in [sqlite_sequence], the largest rowid AUTOINCREMENT has
    handed out. *)
Record database : Type := mkDatabase {
  notes : list Row;
  sqlite_sequence : Z
}.

(** SQLite integers are signed 64-bit. *)
Definition INT64_MIN : Z := - 2 ^ 63.
Definition INT64_MAX : Z := 2 ^ 63 - 1.

Definition is_int64 (v : Z) : bool := (INT64_MIN <=? v) && (v <=? INT64_MAX).

(** Binding a Python [int] to a [?] placeholder: the driver converts it to
    a 64-bit integer and raises where it does not fit. *)
Definition bind_int (v : Z) : result Z :=
  if is_int64 v then Return v else Raise OverflowError.

(** [SELECT ... FROM notes WHERE id = ?] followed by [fetchone()]. *)
Definition select_by_id (tbl : list Row) (i : Z) : option Row :=
  find (fun r => row_id r =? i) tbl.

(** The largest rowid in the table, 0 for the empty table. *)
Definition last_rowid (tbl : list Row) : Z :=
  fold_right (fun r m => Z.max (row_id r) m) 0 tbl.

(** The largest rowid that ever existed in the table, as AUTOINCREMENT
    tracks it. *)
Definition largest_rowid (db : database) : Z :=
  Z.max (last_rowid (notes db)) (sqlite_sequence db).

(** [INSERT INTO notes (title, content) VALUES (?, ?)]: AUTOINCREMENT picks
    one more than the largest rowid that ever existed in the table and
    refuses once the largest possible rowid has been used; both timestamp
    columns take their default, the clock reading of the statement.
    The function returns the new database and [lastrowid]. *)
Definition insert_note (t c : string) (now : Z) (db : database)
  : result (database * Z) :=
  if INT64_MAX <=? largest_rowid db then Raise OperationalError
  else
    let rowid := largest_rowid db + 1 in
    Return (mkDatabase (notes db ++ [mkRow rowid t c now now]) rowid, rowid).

(** [COALESCE(?, column)]: the bound value unless it is NULL. *)
Definition COALESCE (v : option string) (column : string) : string :=
  match v with
  | Some s => s
  | None => column
  end.

(** The SET clause of the UPDATE of [update_note], applied to the rows that
    match [WHERE id = ?]. *)
Definition set_row (t c : option string) (now : Z) (i : Z) (r : Row) : Row :=
  if row_id r =? i
  then mkRow (row_id r)
             (COALESCE t (row_title r))
             (COALESCE c (row_content r))
             (row_created_at r)
             now
  else r.

Definition update_notes (t c : option string) (now : Z) (i : Z) (db : database)
  : database :=
  mkDatabase (map (set_row t c now i) (notes db)) (sqlite_sequence db).

(** [DELETE FROM notes WHERE id = ?]: the new database and [rowcount]. *)
Definition delete_notes (i : Z) (db : database) : database * Z :=
  (mkDatabase (List.filter (fun r => negb (row_id r =? i)) (notes db))
              (sqlite_sequence db),
   Z.of_nat (List.length (List.filter (fun r => row_id r =? i) (notes db)))).

(** [ORDER BY datetime(updated_at) DESC, id DESC]: [r1] may come before
    [r2]. *)
Definition order_by (r1 r2 : Row) : Prop :=
  row_updated_at r2 < row_updated_at r1
  \/ (row_updated_at r2 = row_updated_at r1 /\ row_id r2 <= row_id r1).

#[global] Instance order_by_dec : RelDecision order_by.
Proof. intros r1 r2. unfold order_by. apply _. Defined.

(** [LIMIT ? OFFSET ?] on an ordered result: a negative OFFSET counts as 0
    and a negative LIMIT as no limit. *)
Definition limit_offset {A : Type} (limit offset : Z) (l : list A) : list A :=
  let rest := skipn (Z.to_nat offset) l in
  if limit <? 0 then rest else firstn (Z.to_nat limit) rest.

(** [SELECT ... FROM notes ORDER BY datetime(updated_at) DESC, id DESC
    LIMIT ? OFFSET ?] followed by [fetchall()]. *)
Definition select_page (limit offset : Z) (tbl : list Row) : list Row :=
  limit_offset limit offset (merge_sort order_by tbl).

End Sqlite.
Import Sqlite.

(** ** The service *)

(** [_ensure_schema]: CREATE TABLE IF NOT EXISTS gives the empty table where
    the database file has none yet and leaves an existing table alone. *)
Definition _ensure_schema (file : option database) : database :=
  match file with
  | None => mkDatabase [] 0
  | Some db => db
  end.

(** The constraints of [NoteBase]: title of 1 to 200 characters, content of
    at least one. *)
Definition title_ok (s : string) : bool :=
  ((1 <=? String.length s) && (String.length s <=? 200))%nat.

Definition content_ok (s : string) : bool :=
  (1 <=? String.length s)%nat.

Definition NoteBase (t c : string) : bool := title_ok t && content_ok c.

Record NoteCreate : Type := mkNoteCreate {
  create_title : string;
  create_content : string
}.

Record NoteUpdate : Type := mkNoteUpdate {
  update_title : option string;
  update_content : option string
}.

Record Note : Type := mkNote {
  note_id : Z;
  note_title : string;
  note_content : string;
  note_created_at : Z;
  note_updated_at : Z
}.

(** [_row_to_note]: the constructor of [Note] validates the fields it
    inherits from [NoteBase]; a missing row cannot be subscripted. *)
Definition _row_to_note (row : option Row) : result Note :=
  match row with
  | None => Raise TypeError
  | Some r =>
      if NoteBase (row_title r) (row_content r)
      then Return (mkNote (row_id r) (row_title r) (row_content r)
                          (row_created_at r) (row_updated_at r))
      else Raise ValidationError
  end.

Definition health_check : string := "Healthy".

Definition list_notes (limit offset : Z) (db : database) : result (list Note) :=
  lim ← bind_int limit;
  off ← bind_int offset;
  comprehension (fun r => _row_to_note (Some r)) (select_page lim off (notes db)).

Definition get_note (note_id : Z) (db : database) : result Note :=
  i ← bind_int note_id;
  match select_by_id (notes db) i with
  | None => Raise (HTTPException HTTP_404_NOT_FOUND "Note not found")
  | Some r => _row_to_note (Some r)
  end.

(** The handlers that write return the database they leave behind: every
    statement they run is committed before anything after it can raise. *)
Definition create_note (payload : NoteCreate) (now : Z) (db : database)
  : database * result Note :=
  match insert_note (create_title payload) (create_content payload) now db with
  | Raise e => (db, Raise e)
  | Return (db', rowid) => (db', _row_to_note (select_by_id (notes db') rowid))
  end.

Definition update_note (note_id : Z) (payload : NoteUpdate) (now : Z) (db : database)
  : database * result Note :=
  match update_title payload, update_content payload with
  | None, None =>
      (db, Raise (HTTPException HTTP_400_BAD_REQUEST
                    "At least one of 'title' or 'content' must be provided"))
  | t, c =>
      match bind_int note_id with
      | Raise e => (db, Raise e)
      | Return i =>
          match select_by_id (notes db) i with
          | None => (db, Raise (HTTPException HTTP_404_NOT_FOUND "Note not found"))
          | Some _ =>
              let db' := update_notes t c now i db in
              (db', _row_to_note (select_by_id (notes db') i))
          end
      end
  end.

Definition delete_note (note_id : Z) (db : database) : database * result unit :=
  match bind_int note_id with
  | Raise e => (db, Raise e)
  | Return i =>
      let '(db', rowcount) := delete_notes i db in
      if rowcount =? 0
      then (db', Raise (HTTPException HTTP_404_NOT_FOUND "Note not found"))
      else (db', Return tt)
  end.

(** ** The HTTP layer *)

(** The JSON body of POST and PUT, as far as the models read it: each of the
    two keys is either a string or absent ([null] counts as absent). *)
Record JsonBody : Type := mkJsonBody {
  json_title : option string;
  json_content : option string
}.

(** A request as it reaches the routes: path and query parameters are the
    integers their texts parsed to.  A path segment that is no integer, or
    one the integer parser refuses, is answered 422 by the framework and is
    no [note_id] here; for the offset of a listing the refusal of an
    overlong text is part of [Query_offset]. *)
Inductive Request : Type :=
| GET_root
| GET_notes (limit offset : option Z)
| GET_note (note_id : Z)
| POST_notes (body : JsonBody)
| PUT_note (note_id : Z) (body : JsonBody)
| DELETE_note (note_id : Z).

Inductive Content : Type :=
| Message (s : string)
| NoteList (l : list Note)
| NoteBody (n : Note)
| Detail (s : string)
| NoContent.

Record Response : Type := mkResponse {
  status_code : Z;
  content : Content
}.

(** [limit: int = Query(100, ge=1, le=500)], [offset: int = Query(0, ge=0)]. *)
Definition Query_limit (limit : option Z) : result Z :=
  let v := default 100 limit in
  if (1 <=? v) && (v <=? 500) then Return v else Raise RequestValidationError.

(** The integer parser of the framework refuses a text of more than 4300
    characters before any constraint is looked at.  A request carries the
    value of the parameter; for an offset that is not negative the text is
    too long when the value has more than 4300 decimal digits.  (A limit of
    that size is refused by [le=500] with the same answer.) *)
Definition INT_MAX_STR_DIGITS : nat := 4300.

(** The least value that is not negative and whose text is too long. *)
Definition INT_PARSING_BOUND : Z := 10 ^ Z.of_nat INT_MAX_STR_DIGITS.

(** [v] is below 10, or has at most [n] decimal digits. *)
Fixpoint at_most_digits (n : nat) (v : Z) : bool :=
  match n with
  | O => false
  | S n' => if v <? 10 then true else at_most_digits n' (v / 10)
  end.

Definition Query_offset (offset : option Z) : result Z :=
  let v := default 0 offset in
  if at_most_digits INT_MAX_STR_DIGITS v
  then if 0 <=? v then Return v else Raise RequestValidationError
  else Raise RequestValidationError.

(** Parsing a body as [NoteCreate]: both fields required, under the
    constraints of [NoteBase]. *)
Definition parse_NoteCreate (body : JsonBody) : result NoteCreate :=
  match json_title body, json_content body with
  | Some t, Some c =>
      if NoteBase t c then Return (mkNoteCreate t c) else Raise RequestValidationError
  | _, _ => Raise RequestValidationError
  end.

(** Parsing a body as [NoteUpdate]: both fields optional, a field that is
    present under the same constraint as in [NoteBase]. *)
Definition parse_NoteUpdate (body : JsonBody) : result NoteUpdate :=
  if from_option title_ok true (json_title body)
     && from_option content_ok true (json_content body)
  then Return (mkNoteUpdate (json_title body) (json_content body))
  else Raise RequestValidationError.

(** What the framework makes of an exception: the status and detail of an
    [HTTPException], 422 for a request that failed validation, 500 for
    anything a handler let through.  (The body of a 422 lists the offending
    fields; only its status matters here.) *)
Definition exception_handler (e : exception) : Response :=
  match e with
  | HTTPException code detail => mkResponse code (Detail detail)
  | RequestValidationError =>
      mkResponse HTTP_422_UNPROCESSABLE_ENTITY (Detail "Unprocessable Entity")
  | _ => mkResponse HTTP_500_INTERNAL_SERVER_ERROR (Detail "Internal Server Error")
  end.

Definition respond {A : Type} (code : Z) (render : A -> Content) (r : result A)
  : Response :=
  match r with
  | Return a => mkResponse code (render a)
  | Raise e => exception_handler e
  end.

(** One request served at clock reading [now]. *)
Definition app (now : Z) (req : Request) (db : database) : database * Response :=
  match req with
  | GET_root => (db, mkResponse HTTP_200_OK (Message health_check))
  | GET_notes limit offset =>
      (db, respond HTTP_200_OK NoteList
             (lim ← Query_limit limit; off ← Query_offset offset;
              list_notes lim off db))
  | GET_note note_id => (db, respond HTTP_200_OK NoteBody (get_note note_id db))
  | POST_notes body =>
      match parse_NoteCreate body with
      | Raise e => (db, exception_handler e)
      | Return payload =>
          let '(db', r) := create_note payload now db in
          (db', respond HTTP_201_CREATED NoteBody r)
      end
  | PUT_note note_id body =>
      match parse_NoteUpdate body with
      | Raise e => (db, exception_handler e)
      | Return payload =>
          let '(db', r) := update_note note_id payload now db in
          (db', respond HTTP_200_OK NoteBody r)
      end
  | DELETE_note note_id =>
      let '(db', r) := delete_note note_id db in
      (db', respond HTTP_204_NO_CONTENT (fun _ => NoContent) r)
  end.

(** The service over time: the requests served one after the other, each at
    its clock reading, with the exchanges it produced. *)
Definition Exchange : Type := (Z * Request * Response)%type.

Fixpoint run (events : list (Z * Request)) (db : database)
  : database * list Exchange :=
  match events with
  | [] => (db, [])
  | (now, req) :: rest =>
      let '(db1, resp) := app now req db in
      let '(db2, log) := run rest db1 in
      (db2, (now, req, resp) :: log)
  end.

(** ** The vocabulary of the properties *)

(** The note a row is read as. *)
Definition note_of_row (r : Row) : Note :=
  mkNote (row_id r) (row_title r) (row_content r) (row_created_at r) (row_updated_at r).

(** The order of a listing: [n1] may come before [n2] when it was updated
    later, or at the same time and has the larger id. *)
Definition most_recent_first (n1 n2 : Note) : Prop :=
  note_updated_at n2 < note_updated_at n1
  \/ (note_updated_at n2 = note_updated_at n1 /\ note_id n2 <= note_id n1).

(** The rows of the table all fit [NoteBase]. *)
Definition valid_rows (db : database) : Prop :=
  Forall (fun r => NoteBase (row_title r) (row_content r) = true) (notes db).

(** No row of the table has id [i]. *)
Definition no_row (i : Z) (db : database) : Prop :=
  forall r, r ∈ notes db -> row_id r <> i.

Definition not_found : Response :=
  mkResponse HTTP_404_NOT_FOUND (Detail "Note not found").

Definition no_fields : Response :=
  mkResponse HTTP_400_BAD_REQUEST
    (Detail "At least one of 'title' or 'content' must be provided").

Definition unprocessable : Response :=
  mkResponse HTTP_422_UNPROCESSABLE_ENTITY (Detail "Unprocessable Entity").

(** The writes of the program, one per statement that changes the table: a
    request leaves the database alone, or inserts one row for a validated
    [NoteCreate], or runs the UPDATE for a validated [NoteUpdate], or runs the
    DELETE. *)
Inductive effect (now : Z) (db : database) : Request -> database -> Prop :=
| effect_none req :
    effect now db req db
| effect_insert t c :
    NoteBase t c = true ->
    largest_rowid db < INT64_MAX ->
    effect now db (POST_notes (mkJsonBody (Some t) (Some c)))
      (mkDatabase (notes db ++ [mkRow (largest_rowid db + 1) t c now now])
                  (largest_rowid db + 1))
| effect_update i body :
    from_option title_ok true (json_title body) = true ->
    from_option content_ok true (json_content body) = true ->
    effect now db (PUT_note i body)
      (update_notes (json_title body) (json_content body) now i db)
| effect_delete i :
    effect now db (DELETE_note i) (fst (delete_notes i db)).



(** What each kind of request leaves of the rows that were there. *)
Definition rows_kept (now : Z) (req : Request) (db db' : database) : Prop :=
  match req with
  | POST_notes _ =>
      exists new, notes db' = notes db ++ new
                  /\ Forall (fun r => row_created_at r = now /\ row_updated_at r = now) new
  | PUT_note _ _ =>
      row_id <$> notes db' = row_id <$> notes db
      /\ row_created_at <$> notes db' = row_created_at <$> notes db
  | DELETE_note _ => forall r, r ∈ notes db' -> r ∈ notes db
  | GET_root | GET_notes _ _ | GET_note _ => db' = db
  end.

(** The id a request was given, if it created a note. *)
Definition created_id (x : Exchange) : option Z :=
  match x with
  | (_, POST_notes _, mkResponse code (NoteBody n)) =>
      if code =? HTTP_201_CREATED then Some (note_id n) else None
  | _ => None
  end.

Definition created_ids (log : list Exchange) : list Z := omap created_id log.

(** AUTOINCREMENT has recorded every rowid of the table. *)
Definition rowids_recorded (db : database) : Prop :=
  Forall (fun r => row_id r <= sqlite_sequence db) (notes db).

Definition primary_key (db : database) : Prop := NoDup (row_id <$> notes db).

(** The table read as a map from ids to notes; of two rows with one id the
    first is the one a SELECT by id fetches. *)
Definition stored (db : database) : gmap Z Note :=
  list_to_map ((fun r => (row_id r, note_of_row r)) <$> notes db).

(** The notes as the requests wrote them, followed along the exchanges with
    the client: a POST answered 201 writes the title and content of its body
    under the id of the answer, with both timestamps the clock reading of the
    request; a PUT answered 200 writes the fields its body supplies and
    updated_at; a DELETE answered 204 removes the note. *)
Definition last_written (w : gmap Z Note) (x : Exchange) : gmap Z Note :=
  match x with
  | (now, POST_notes body, resp) =>
      match json_title body, json_content body, content resp with
      | Some t, Some c, NoteBody n =>
          if status_code resp =? HTTP_201_CREATED
          then <[note_id n := mkNote (note_id n) t c now now]> w
          else w
      | _, _, _ => w
      end
  | (now, PUT_note i body, resp) =>
      if status_code resp =? HTTP_200_OK
      then alter (fun n => mkNote (note_id n)
                                  (COALESCE (json_title body) (note_title n))
                                  (COALESCE (json_content body) (note_content n))
                                  (note_created_at n)
                                  now) i w
      else w
  | (_, DELETE_note i, resp) =>
      if status_code resp =? HTTP_204_NO_CONTENT then delete i w else w
  | _ => w
  end.

(** The rowids of the table are SQLite integers. *)
Definition int64_rowids (db : database) : Prop :=
  Forall (fun r => is_int64 (row_id r) = true) (notes db).

(** ** Configuration from the environment *)

(** An environment value is a Python [str] whose characters matter: it is
    modelled by the list of its code points.  [codepoints] reads an ASCII
    literal as such a list. *)
Definition codepoints (s : string) : list N :=
  Ascii.N_of_ascii <$> list_ascii_of_string s.

(** [os.getenv]: the value of a variable, [None] when it is not set. *)
Definition environ : Type := string -> option (list N).

Definition comma : N := 44%N.

Section str_methods.

(** [str.isspace] on one character: the whitespace table of the Python
    runtime, which this program does not contain. *)
Variable isspace : N -> bool.

(** [s.lstrip()], [s.rstrip()], [s.strip()]: whitespace removed at the left
    end, at the right end, at both. *)
Fixpoint lstrip (s : list N) : list N :=
  match s with
  | [] => []
  | c :: s' => if isspace c then lstrip s' else s
  end.

Definition rstrip (s : list N) : list N := reverse (lstrip (reverse s)).

Definition strip (s : list N) : list N := rstrip (lstrip s).

(** Neither the first nor the last character is whitespace. *)
Definition stripped (s : list N) : Prop :=
  (forall c, head s = Some c -> isspace c = false)
  /\ (forall c, last s = Some c -> isspace c = false).

(** [s.split(sep)] for a separator of one character: the pieces between the
    separators, empty pieces included; the empty string has one empty piece. *)
Fixpoint split (sep : N) (s : list N) : list (list N) :=
  match s with
  | [] => [[]]
  | c :: s' =>
      if (c =? sep)%N then [] :: split sep s'
      else match split sep s' with
           | [] => [[c]]
           | piece :: pieces => (c :: piece) :: pieces
           end
  end.

(** [sep.join(pieces)]. *)
Fixpoint join (sep : list N) (pieces : list (list N)) : list N :=
  match pieces with
  | [] => []
  | [piece] => piece
  | piece :: rest => piece ++ sep ++ join sep rest
  end.

(** A string is falsy when it is empty. *)
Definition truthy (s : list N) : bool :=
  match s with
  | [] => false
  | _ :: _ => true
  end.

(** [_parse_csv_env]: nothing for an unset or empty value, else the stripped
    pieces between commas that are not empty once stripped. *)
Definition _parse_csv_env (value : option (list N)) : list (list N) :=
  match value with
  | None => []
  | Some s =>
      if negb (truthy s) then []
      else strip <$> List.filter (fun v => truthy (strip v)) (split comma s)
  end.

(** [_parse_csv_env(os.getenv(key)) or ["*"]]. *)
Definition or_star (values : list (list N)) : list (list N) :=
  match values with
  | [] => [codepoints "*"]
  | _ :: _ => values
  end.

Definition allowed_origins (env : environ) : list (list N) :=
  or_star (_parse_csv_env (env "ALLOWED_ORIGINS"%string)).

Definition allowed_headers (env : environ) : list (list N) :=
  or_star (_parse_csv_env (env "ALLOWED_HEADERS"%string)).

Definition allowed_methods (env : environ) : list (list N) :=
  or_star (_parse_csv_env (env "ALLOWED_METHODS"%string)).

End str_methods.

(** [_get_db_path]: the value of SQLITE_DB when it is set and not empty, the
    path in the workspace otherwise. *)
Definition _get_db_path (env : environ) : list N :=
  match env "SQLITE_DB"%string with
  | Some env_path =>
      if truthy env_path then env_path
      else codepoints "/home/kavia/workspace/code-generation/simple-notes-app-207251-207262/database/myapp.db"
  | None =>
      codepoints "/home/kavia/workspace/code-generation/simple-notes-app-207251-207262/database/myapp.db"
  end.

(** A variable that is not set, or whose value has nothing but commas and
    whitespace. *)
Definition blank (isspace : N -> bool) (value : option (list N)) : Prop :=
  match value with
  | None => True
  | Some s => Forall (fun c => c = comma \/ isspace c = true) s
  end.



(** * Properties *)

(** ** Statements of the storage layer *)

Section statements.

Implicit Types (tbl : list Row) (r : Row) (i j : Z).

Lemma select_by_id_Some tbl i r :
  select_by_id tbl i = Some r -> r ∈ tbl /\ row_id r = i.
Proof.
  unfold select_by_id. induction tbl as [|r0 tbl IH]; simpl; [discriminate|].
  destruct (row_id r0 =? i) eqn:E.
  - intros [= <-]. split; [left | lia].
  - intros H. destruct (IH H). split; [by right | done].
Qed.

Lemma select_by_id_None tbl i :
  select_by_id tbl i = None <-> (forall r, r ∈ tbl -> row_id r <> i).
Proof.
  unfold select_by_id. induction tbl as [|r0 tbl IH]; simpl.
  - split; [|done]. intros _ r Hr. inversion Hr.
  - destruct (row_id r0 =? i) eqn:E.
    + split; [discriminate|]. intros H. exfalso. apply (H r0); [left | lia].
    + rewrite IH. split.
      * intros H r Hr. inversion Hr; subst; [lia | auto].
      * intros H r Hr. apply H. by right.
Qed.

Lemma select_by_id_app tbl1 tbl2 i :
  select_by_id (tbl1 ++ tbl2) i =
  match select_by_id tbl1 i with
  | Some r => Some r
  | None => select_by_id tbl2 i
  end.
Proof.
  unfold select_by_id. induction tbl1 as [|r0 tbl1 IH]; simpl; [done|].
  by destruct (row_id r0 =? i).
Qed.

Lemma row_id_set_row t c now i r : row_id (set_row t c now i r) = row_id r.
Proof. unfold set_row. by destruct (row_id r =? i). Qed.

Lemma select_by_id_update t c now i tbl j :
  select_by_id (map (set_row t c now i) tbl) j =
  set_row t c now i <$> select_by_id tbl j.
Proof.
  unfold select_by_id. induction tbl as [|r0 tbl IH]; simpl; [done|].
  rewrite row_id_set_row. by destruct (row_id r0 =? j).
Qed.

Lemma select_by_id_delete i tbl j :
  select_by_id (List.filter (fun r => negb (row_id r =? i)) tbl) j =
  if j =? i then None else select_by_id tbl j.
Proof.
  unfold select_by_id. induction tbl as [|r0 tbl IH]; simpl.
  - by destruct (j =? i).
  - destruct (row_id r0 =? i) eqn:Ei; simpl.
    + rewrite IH. destruct (j =? i) eqn:Ej; [done|].
      replace (row_id r0 =? j) with false by lia. done.
    + destruct (row_id r0 =? j) eqn:Ej; [|done].
      replace (j =? i) with false by lia. done.
Qed.

Lemma last_rowid_nonneg tbl : 0 <= last_rowid tbl.
Proof. induction tbl; simpl; lia. Qed.

Lemma last_rowid_ge tbl r : r ∈ tbl -> row_id r <= last_rowid tbl.
Proof.
  induction 1 as [r tbl|r r0 tbl _ IH]; simpl; lia.
Qed.

Lemma bind_int_Return v w : bind_int v = Return w -> is_int64 v = true /\ w = v.
Proof. unfold bind_int. destruct (is_int64 v); [by intros [= <-] | done]. Qed.

Lemma bind_int_int64 v : is_int64 v = true -> bind_int v = Return v.
Proof. unfold bind_int. by intros ->. Qed.

End statements.

Lemma _row_to_note_Return row n :
  _row_to_note row = Return n ->
  exists r, row = Some r /\ NoteBase (row_title r) (row_content r) = true
            /\ n = note_of_row r.
Proof.
  destruct row as [r|]; simpl; [|done].
  destruct (NoteBase _ _) eqn:E; [|done]. intros [= <-]. eauto.
Qed.

Lemma _row_to_note_valid r :
  NoteBase (row_title r) (row_content r) = true ->
  _row_to_note (Some r) = Return (note_of_row r).
Proof. simpl. by intros ->. Qed.

Lemma get_note_unfold i db :
  get_note i db =
  if is_int64 i
  then match select_by_id (notes db) i with
       | Some r => _row_to_note (Some r)
       | None => Raise (HTTPException HTTP_404_NOT_FOUND "Note not found")
       end
  else Raise OverflowError.
Proof. unfold get_note, bind_int. by destruct (is_int64 i). Qed.

Lemma get_note_Return i db n :
  get_note i db = Return n ->
  exists r, is_int64 i = true /\ select_by_id (notes db) i = Some r
            /\ NoteBase (row_title r) (row_content r) = true
            /\ n = note_of_row r.
Proof.
  rewrite get_note_unfold. destruct (is_int64 i); [|done].
  destruct (select_by_id (notes db) i) as [r|] eqn:Es; [|done].
  intros H. apply _row_to_note_Return in H as (r' & [= <-] & Hv & ->). eauto.
Qed.

(** ** Update *)

Lemma update_note_found i t c now db r :
  is_Some t \/ is_Some c ->
  is_int64 i = true ->
  select_by_id (notes db) i = Some r ->
  update_note i (mkNoteUpdate t c) now db =
  (update_notes t c now i db, _row_to_note (Some (set_row t c now i r))).
Proof.
  intros Hsup Hi Hr. unfold update_note. cbn [update_title update_content].
  assert (Hsel : select_by_id (notes (update_notes t c now i db)) i
                 = Some (set_row t c now i r)).
  { unfold update_notes. cbn [notes]. by rewrite select_by_id_update, Hr. }
  destruct t, c; cbv zeta; rewrite ?(bind_int_int64 _ Hi), ?Hr, ?Hsel; try done.
  destruct Hsup as [[? [=]]|[? [=]]].
Qed.

Lemma COALESCE_title_ok t s :
  from_option title_ok true t = true -> title_ok s = true ->
  title_ok (COALESCE t s) = true.
Proof. by destruct t. Qed.

Lemma COALESCE_content_ok c s :
  from_option content_ok true c = true -> content_ok s = true ->
  content_ok (COALESCE c s) = true.
Proof. by destruct c. Qed.





(** ** Create *)

Lemma largest_rowid_nonneg db : 0 <= largest_rowid db.
Proof. unfold largest_rowid. pose proof (last_rowid_nonneg (notes db)). lia. Qed.

Lemma largest_rowid_ge db r : r ∈ notes db -> row_id r <= largest_rowid db.
Proof. intros Hr%last_rowid_ge. unfold largest_rowid. lia. Qed.

Lemma largest_rowid_sequence db : sqlite_sequence db <= largest_rowid db.
Proof. unfold largest_rowid. lia. Qed.

Lemma insert_note_Return t c now db :
  largest_rowid db < INT64_MAX ->
  insert_note t c now db =
  Return (mkDatabase (notes db ++ [mkRow (largest_rowid db + 1) t c now now])
                     (largest_rowid db + 1),
          largest_rowid db + 1).
Proof.
  intros H. unfold insert_note.
  by replace (INT64_MAX <=? largest_rowid db) with false by lia.
Qed.

Lemma insert_note_Raise t c now db :
  INT64_MAX <= largest_rowid db ->
  insert_note t c now db = Raise OperationalError.
Proof.
  intros H. unfold insert_note.
  by replace (INT64_MAX <=? largest_rowid db) with true by lia.
Qed.

Lemma select_by_id_fresh db i r :
  largest_rowid db < i -> row_id r = i ->
  select_by_id (notes db ++ [r]) i = Some r.
Proof.
  intros Hi Hr. rewrite select_by_id_app.
  destruct (select_by_id (notes db) i) as [r0|] eqn:E.
  - apply select_by_id_Some in E as [Hin%largest_rowid_ge Hid]. lia.
  - unfold select_by_id. simpl. by replace (row_id r =? i) with true by lia.
Qed.

Lemma select_by_id_insert_other db i r j :
  largest_rowid db < i -> row_id r = i -> j <> i ->
  select_by_id (notes db ++ [r]) j = select_by_id (notes db) j.
Proof.
  intros Hi Hr Hj. rewrite select_by_id_app.
  destruct (select_by_id (notes db) j); [done|].
  unfold select_by_id. simpl. by replace (row_id r =? j) with false by lia.
Qed.

Lemma is_int64_rowid v : 0 <= v -> v <= INT64_MAX -> is_int64 v = true.
Proof.
  intros H0 H1. unfold is_int64. apply andb_true_iff.
  unfold INT64_MIN, INT64_MAX in *. lia.
Qed.

Lemma create_note_Return t c now db :
  NoteBase t c = true ->
  largest_rowid db < INT64_MAX ->
  create_note (mkNoteCreate t c) now db =
  (mkDatabase (notes db ++ [mkRow (largest_rowid db + 1) t c now now])
              (largest_rowid db + 1),
   Return (mkNote (largest_rowid db + 1) t c now now)).
Proof.
  intros Hv Hfree. unfold create_note. cbn [create_title create_content].
  rewrite insert_note_Return by done. cbn [notes].
  rewrite select_by_id_fresh by (cbn [row_id]; lia).
  by rewrite _row_to_note_valid.
Qed.



(** ** Query parameters *)

Lemma at_most_digits_lt n v :
  0 <= v -> at_most_digits (S n) v = true <-> v < 10 ^ Z.of_nat (S n).
Proof.
  revert v. induction n as [|n IH]; intros v Hv.
  - cbn [at_most_digits]. change (10 ^ Z.of_nat 1) with 10.
    destruct (v <? 10) eqn:E; [split; [lia | done] | split; [done | lia]].
  - change (at_most_digits (S (S n)) v)
      with (if v <? 10 then true else at_most_digits (S n) (v / 10)).
    rewrite (Nat2Z.inj_succ (S n)), Z.pow_succ_r by lia.
    assert (0 < 10 ^ Z.of_nat (S n)) by (apply Z.pow_pos_nonneg; lia).
    pose proof (Z.div_mod v 10 ltac:(lia)) as Hdm.
    pose proof (Z.mod_pos_bound v 10 ltac:(lia)) as Hm.
    destruct (v <? 10) eqn:E; [split; [lia | done]|].
    rewrite IH by (apply Z.div_pos; lia). lia.
Qed.

Lemma int_parsing_size v :
  0 <= v -> at_most_digits INT_MAX_STR_DIGITS v = true <-> v < INT_PARSING_BOUND.
Proof.
  intros Hv. unfold INT_PARSING_BOUND, INT_MAX_STR_DIGITS.
  apply (at_most_digits_lt 4299 v Hv).
Qed.

Lemma INT64_MAX_parses : INT64_MAX < INT_PARSING_BOUND.
Proof.
  unfold INT_PARSING_BOUND.
  assert (Hd : 19 <= Z.of_nat INT_MAX_STR_DIGITS)
    by (change 19 with (Z.of_nat 19); apply inj_le; unfold INT_MAX_STR_DIGITS; lia).
  generalize dependent (Z.of_nat INT_MAX_STR_DIGITS). intros b Hd.
  pose proof (Z.pow_le_mono_r 10 19 b ltac:(lia) Hd).
  assert (INT64_MAX < 10 ^ 19) by (unfold INT64_MAX; lia). lia.
Qed.

Lemma Query_offset_Return offset :
  0 <= default 0 offset < INT_PARSING_BOUND ->
  Query_offset offset = Return (default 0 offset).
Proof.
  intros [H0 H1]. unfold Query_offset. cbv zeta.
  apply (int_parsing_size _ H0) in H1. rewrite H1.
  by replace (0 <=? default 0 offset) with true by lia.
Qed.

Lemma Query_offset_Raise offset :
  default 0 offset < 0 \/ INT_PARSING_BOUND <= default 0 offset ->
  Query_offset offset = Raise RequestValidationError.
Proof.
  intros H. unfold Query_offset. cbv zeta.
  destruct (at_most_digits INT_MAX_STR_DIGITS (default 0 offset)) eqn:E; [|done].
  destruct (0 <=? default 0 offset) eqn:E0; [|done]. exfalso.
  apply int_parsing_size in E; lia.
Qed.

(** ** List *)

#[global] Instance order_by_total : Total order_by.
Proof. intros r1 r2. unfold order_by. lia. Qed.

#[global] Instance order_by_trans : Transitive order_by.
Proof. intros r1 r2 r3. unfold order_by. lia. Qed.

Lemma comprehension_valid (rows : list Row) :
  Forall (fun r => NoteBase (row_title r) (row_content r) = true) rows ->
  comprehension (fun r => _row_to_note (Some r)) rows = Return (note_of_row <$> rows).
Proof.
  induction 1 as [|r rows Hr _ IH]; [done|].
  cbn [comprehension]. by rewrite (_row_to_note_valid _ Hr), IH.
Qed.

Lemma limit_offset_fmap {A B : Type} (f : A -> B) limit offset (l : list A) :
  limit_offset limit offset (f <$> l) = f <$> limit_offset limit offset l.
Proof.
  unfold limit_offset. destruct (limit <? 0).
  - by rewrite fmap_drop.
  - by rewrite fmap_take, fmap_drop.
Qed.

Lemma limit_offset_sublist {A : Type} limit offset (l : list A) :
  exists l1 l3, l = l1 ++ limit_offset limit offset l ++ l3.
Proof.
  unfold limit_offset. exists (take (Z.to_nat offset) l).
  destruct (limit <? 0).
  - exists []. by rewrite app_nil_r, take_drop.
  - exists (drop (Z.to_nat limit) (drop (Z.to_nat offset) l)).
    by rewrite !take_drop.
Qed.

Lemma limit_offset_StronglySorted {A : Type} (R : relation A) limit offset l :
  StronglySorted R l -> StronglySorted R (limit_offset limit offset l).
Proof.
  intros Hl. destruct (limit_offset_sublist limit offset l) as (l1 & l3 & E).
  rewrite E in Hl.
  by apply StronglySorted_app_1_r, StronglySorted_app_1_l in Hl.
Qed.

Lemma limit_offset_valid {A : Type} limit offset (l : list A) :
  0 <= limit -> 0 <= offset ->
  limit_offset limit offset l = take (Z.to_nat limit) (drop (Z.to_nat offset) l).
Proof. intros H _. unfold limit_offset. by replace (limit <? 0) with false by lia. Qed.

Lemma select_page_Forall (P : Row -> Prop) limit offset tbl :
  Forall P tbl -> Forall P (select_page limit offset tbl).
Proof.
  intros H. unfold select_page.
  destruct (limit_offset_sublist limit offset (merge_sort order_by tbl))
    as (l1 & l3 & E).
  assert (Hs : Forall P (merge_sort order_by tbl))
    by by rewrite merge_sort_Permutation.
  rewrite E in Hs. by apply Forall_app in Hs as [_ [? _]%Forall_app].
Qed.

Lemma list_notes_Return limit offset db :
  valid_rows db -> is_int64 limit = true -> is_int64 offset = true ->
  list_notes limit offset db =
  Return (limit_offset limit offset (note_of_row <$> merge_sort order_by (notes db))).
Proof.
  intros Hv Hl Ho. unfold list_notes.
  rewrite (bind_int_int64 _ Hl), (bind_int_int64 _ Ho).
  cbn [mbind result_bind].
  rewrite comprehension_valid by by apply select_page_Forall.
  unfold select_page. by rewrite limit_offset_fmap.
Qed.

(** The order of a listing, for every offset SQLite can take.  On a table
    whose rows fit [NoteBase], a GET of the list with limit between 1 and 500
    and offset between 0 and the largest SQLite integer (each possibly left
    to its default) answers 200 with the notes [offset .. offset + limit) of
    the sequence of all stored notes arranged by updated_at descending, ties
    by id descending: every note of the answer is updated no earlier than
    every note after it, and at equal updated_at has the larger or equal id.
    The answer is the empty sequence when the table has no rows.  The table
    is left as it was. *)
Theorem list_notes_most_recent_first (now : Z) (limit offset : option Z)
    (db : database) :
  valid_rows db ->
  1 <= default 100 limit <= 500 ->
  0 <= default 0 offset <= INT64_MAX ->
  exists all ns,
    app now (GET_notes limit offset) db = (db, mkResponse HTTP_200_OK (NoteList ns))
    /\ all ≡ₚ (note_of_row <$> notes db)
    /\ StronglySorted most_recent_first all
    /\ ns = take (Z.to_nat (default 100 limit))
                 (drop (Z.to_nat (default 0 offset)) all)
    /\ StronglySorted most_recent_first ns
    /\ (notes db = [] -> ns = []).
Proof.
  intros Hv Hl Ho.
  set (all := note_of_row <$> merge_sort order_by (notes db)).
  assert (Hsorted : StronglySorted most_recent_first all).
  { apply (StronglySorted_fmap _ order_by); [done|].
    apply StronglySorted_merge_sort; apply _. }
  exists all, (limit_offset (default 100 limit) (default 0 offset) all).
  split; [|split; [|split; [|split; [|split]]]].
  - unfold app, Query_limit.
    replace ((1 <=? default 100 limit) && (default 100 limit <=? 500)) with true
      by (symmetry; apply andb_true_iff; lia).
    rewrite Query_offset_Return by (pose proof INT64_MAX_parses; lia).
    cbn [mbind result_bind].
    rewrite list_notes_Return; [done|done| |].
    + apply andb_true_iff. unfold INT64_MIN, INT64_MAX. lia.
    + apply andb_true_iff. unfold INT64_MIN, INT64_MAX in *. lia.
  - unfold all. by rewrite merge_sort_Permutation.
  - done.
  - apply limit_offset_valid; lia.
  - by apply limit_offset_StronglySorted.
  - intros E. unfold all. rewrite E. unfold limit_offset.
    change (note_of_row <$> merge_sort order_by []) with (@nil Note).
    rewrite drop_nil. destruct (_ <? 0); [done|]. by rewrite take_nil.
Qed.

Lemma list_notes_most_recent_first_witness :
  exists ns,
    app 30 (GET_notes (Some 2) None)
        (mkDatabase [mkRow 1 "a" "x" 10 10; mkRow 2 "b" "y" 20 20;
                     mkRow 3 "c" "z" 20 20] 3)
    = (mkDatabase [mkRow 1 "a" "x" 10 10; mkRow 2 "b" "y" 20 20;
                   mkRow 3 "c" "z" 20 20] 3,
       mkResponse HTTP_200_OK (NoteList ns))
    /\ StronglySorted most_recent_first ns.
Proof.
  destruct (list_notes_most_recent_first 30 (Some 2) None
              (mkDatabase [mkRow 1 "a" "x" 10 10; mkRow 2 "b" "y" 20 20;
                           mkRow 3 "c" "z" 20 20] 3))
    as (all & ns & Happ & _ & _ & _ & Hs & _).
  - repeat constructor.
  - simpl. lia.
  - simpl. unfold INT64_MAX. lia.
  - exists ns. auto.
Defined.

(** C2.  The listing is due for every valid limit and offset, and the query
    parameter takes every offset that is not negative; at the offset 2^63,
    which is no SQLite integer, the statement cannot bind it and the answer
    is 500 instead of a sequence of notes, also on the empty table, where the
    empty sequence is due.  ([list_notes_most_recent_first] has the order of
    the listing for the offsets up to 2^63 - 1.) *)
Lemma list_notes_offset_not_int64 :
  0 <= 2 ^ 63
  /\ notes (_ensure_schema None) = []
  /\ app 0 (GET_notes (Some 100) (Some (2 ^ 63))) (_ensure_schema None)
     = (_ensure_schema None,
        mkResponse HTTP_500_INTERNAL_SERVER_ERROR (Detail "Internal Server Error"))
  /\ ~ (exists ns, app 0 (GET_notes (Some 100) (Some (2 ^ 63))) (_ensure_schema None)
                   = (_ensure_schema None, mkResponse HTTP_200_OK (NoteList ns))).
Proof.
  split; [lia|]. split; [reflexivity|]. split; [reflexivity|].
  intros [ns H]. vm_compute in H. discriminate H.
Qed.

(** ** Delete, and ids without a row *)

Lemma filter_other_id_all i (tbl : list Row) :
  (forall r, r ∈ tbl -> row_id r <> i) ->
  List.filter (fun r => negb (row_id r =? i)) tbl = tbl.
Proof.
  induction tbl as [|r tbl IH]; intros H; simpl; [done|].
  replace (row_id r =? i) with false
    by (symmetry; apply Z.eqb_neq, H; left).
  simpl. f_equal. apply IH. intros r' Hr'. apply H. by right.
Qed.

Lemma filter_same_id_none i (tbl : list Row) :
  (forall r, r ∈ tbl -> row_id r <> i) <->
  List.filter (fun r => row_id r =? i) tbl = [].
Proof.
  induction tbl as [|r tbl IH]; simpl.
  - split; [done|]. intros _ r Hr. inversion Hr.
  - destruct (row_id r =? i) eqn:E.
    + split; [|done]. intros H. exfalso. apply (H r); [left | lia].
    + rewrite <- IH. split.
      * intros H r' Hr'. apply H. by right.
      * intros H r' Hr'. inversion Hr'; subst; [lia | auto].
Qed.

Lemma no_row_after_delete i db : no_row i (fst (delete_notes i db)).
Proof.
  intros r. cbn [delete_notes fst notes].
  rewrite list_elem_of_In, filter_In. intros [_ H].
  apply negb_true_iff in H. lia.
Qed.

Lemma delete_note_unfold i db :
  delete_note i db =
  if is_int64 i
  then if Z.of_nat (List.length (List.filter (fun r => row_id r =? i) (notes db))) =? 0
       then (fst (delete_notes i db),
             Raise (HTTPException HTTP_404_NOT_FOUND "Note not found"))
       else (fst (delete_notes i db), Return tt)
  else (db, Raise OverflowError).
Proof. unfold delete_note, bind_int. by destruct (is_int64 i). Qed.

Lemma delete_note_no_row i db :
  is_int64 i = true -> no_row i db ->
  delete_note i db = (db, Raise (HTTPException HTTP_404_NOT_FOUND "Note not found")).
Proof.
  intros Hi Hno. rewrite delete_note_unfold, Hi.
  cbn [delete_notes fst]. rewrite (filter_other_id_all _ _ Hno).
  apply filter_same_id_none in Hno. rewrite Hno. by destruct db.
Qed.

Lemma delete_note_Return i db db' :
  delete_note i db = (db', Return tt) ->
  is_int64 i = true /\ db' = fst (delete_notes i db) /\ ~ no_row i db.
Proof.
  rewrite delete_note_unfold. destruct (is_int64 i); [|done].
  destruct (_ =? 0) eqn:E; [done|]. intros [= <-]. repeat split.
  intros Hno%filter_same_id_none. rewrite Hno in E. done.
Qed.

Lemma get_note_no_row i db :
  is_int64 i = true -> no_row i db ->
  get_note i db = Raise (HTTPException HTTP_404_NOT_FOUND "Note not found").
Proof.
  intros Hi Hno. rewrite get_note_unfold, Hi.
  apply select_by_id_None in Hno. by rewrite Hno.
Qed.

Lemma update_note_no_row i t c now db :
  is_Some t \/ is_Some c ->
  is_int64 i = true -> no_row i db ->
  update_note i (mkNoteUpdate t c) now db =
  (db, Raise (HTTPException HTTP_404_NOT_FOUND "Note not found")).
Proof.
  intros Hsup Hi Hno. apply select_by_id_None in Hno.
  unfold update_note. cbn [update_title update_content].
  destruct t, c; rewrite ?(bind_int_int64 _ Hi), ?Hno; try done.
  destruct Hsup as [[? [=]]|[? [=]]].
Qed.

(** Ids without a row, for every id SQLite can take.  For an id that is a
    SQLite integer (signed, 64 bits) and has no row in the table, GET, DELETE,
    and PUT with a body that passes validation and supplies at least one
    field, all answer 404 and leave the table as it was.  After a DELETE that
    answered 204, a GET and a second DELETE of the same id answer 404. *)
Theorem missing_id_not_found (now : Z) (i : Z) (body : JsonBody) (db : database) :
  from_option title_ok true (json_title body) = true ->
  from_option content_ok true (json_content body) = true ->
  is_Some (json_title body) \/ is_Some (json_content body) ->
  (is_int64 i = true -> no_row i db ->
     app now (GET_note i) db = (db, not_found)
     /\ app now (PUT_note i body) db = (db, not_found)
     /\ app now (DELETE_note i) db = (db, not_found))
  /\ (forall db',
        app now (DELETE_note i) db = (db', mkResponse HTTP_204_NO_CONTENT NoContent) ->
        forall later,
          app later (GET_note i) db' = (db', not_found)
          /\ app later (DELETE_note i) db' = (db', not_found)).
Proof.
  intros Ht Hc Hsup. split.
  - intros Hi Hno. repeat split.
    + unfold app. by rewrite get_note_no_row.
    + unfold app, parse_NoteUpdate. rewrite Ht, Hc. cbn [andb].
      by rewrite update_note_no_row.
    + unfold app. by rewrite delete_note_no_row.
  - intros db' Hdel later. unfold app in Hdel.
    destruct (delete_note i db) as [db1 [[]|e]] eqn:E.
    + injection Hdel as <-.
      apply delete_note_Return in E as (Hi & -> & _).
      pose proof (no_row_after_delete i db) as Hno.
      unfold app. by rewrite get_note_no_row, delete_note_no_row.
    + exfalso. rewrite delete_note_unfold in E.
      destruct (is_int64 i); [destruct (_ =? 0)|];
        try discriminate E; injection E as <- <-; cbn in Hdel; discriminate Hdel.
Qed.

Lemma missing_id_not_found_witness :
  (app 5 (GET_note 7) (mkDatabase [mkRow 1 "T" "C" 1 1] 1)
   = (mkDatabase [mkRow 1 "T" "C" 1 1] 1, not_found)
   /\ app 5 (PUT_note 7 (mkJsonBody (Some "T2"%string) None))
          (mkDatabase [mkRow 1 "T" "C" 1 1] 1)
      = (mkDatabase [mkRow 1 "T" "C" 1 1] 1, not_found)
   /\ app 5 (DELETE_note 7) (mkDatabase [mkRow 1 "T" "C" 1 1] 1)
      = (mkDatabase [mkRow 1 "T" "C" 1 1] 1, not_found))
  /\ (app 6 (GET_note 1) (mkDatabase [] 1) = (mkDatabase [] 1, not_found)
      /\ app 6 (DELETE_note 1) (mkDatabase [] 1) = (mkDatabase [] 1, not_found)).
Proof.
  split.
  - destruct (missing_id_not_found 5 7 (mkJsonBody (Some "T2"%string) None)
                (mkDatabase [mkRow 1 "T" "C" 1 1] 1)) as [H _];
      [reflexivity | reflexivity | left; eexists; reflexivity |].
    apply H; [reflexivity|].
    intros r Hr. inversion Hr as [|? ? ? Hr']; subst; [done | inversion Hr'].
  - destruct (missing_id_not_found 5 1 (mkJsonBody (Some "T2"%string) None)
                (mkDatabase [mkRow 1 "T" "C" 1 1] 1)) as [_ H];
      [reflexivity | reflexivity | left; eexists; reflexivity |].
    apply (H (mkDatabase [] 1)). reflexivity.
Defined.

(** C5.  An id without a row is due a 404 from GET, PUT and DELETE; at the
    id 2^63, which no row has and which is no SQLite integer, the statements
    cannot bind it and all three answer 500.  ([missing_id_not_found] has the
    404 for the ids from -2^63 to 2^63 - 1.) *)
Lemma missing_id_not_int64 :
  no_row (2 ^ 63) (_ensure_schema None)
  /\ app 0 (GET_note (2 ^ 63)) (_ensure_schema None)
     = (_ensure_schema None,
        mkResponse HTTP_500_INTERNAL_SERVER_ERROR (Detail "Internal Server Error"))
  /\ app 0 (PUT_note (2 ^ 63) (mkJsonBody (Some "T"%string) None)) (_ensure_schema None)
     = (_ensure_schema None,
        mkResponse HTTP_500_INTERNAL_SERVER_ERROR (Detail "Internal Server Error"))
  /\ app 0 (DELETE_note (2 ^ 63)) (_ensure_schema None)
     = (_ensure_schema None,
        mkResponse HTTP_500_INTERNAL_SERVER_ERROR (Detail "Internal Server Error"))
  /\ status_code (snd (app 0 (GET_note (2 ^ 63)) (_ensure_schema None)))
     <> HTTP_404_NOT_FOUND.
Proof.
  split; [intros r Hr; inversion Hr|]. by vm_compute.
Qed.

(** ** Update without fields *)

(** C6.  A PUT whose body supplies neither title nor content answers 400,
    whatever the id and the table, and the table is left exactly as it
    was. *)
Theorem update_without_fields_rejected (now : Z) (i : Z) (db : database) :
  app now (PUT_note i (mkJsonBody None None)) db = (db, no_fields)
  /\ update_note i (mkNoteUpdate None None) now db
     = (db, Raise (HTTPException HTTP_400_BAD_REQUEST
                     "At least one of 'title' or 'content' must be provided")).
Proof. split; reflexivity. Qed.

(** C10.  In a PUT the check for an empty payload comes before the lookup:
    for an id without a row, a body supplying neither field answers 400,
    where the same id with a supplied field answers 404 (the id being a
    SQLite integer); the 400 does not depend on the id at all. *)
Theorem empty_payload_checked_before_lookup (now : Z) (i : Z) (db : database) :
  no_row i db ->
  app now (PUT_note i (mkJsonBody None None)) db = (db, no_fields)
  /\ (is_int64 i = true ->
      forall body,
        from_option title_ok true (json_title body) = true ->
        from_option content_ok true (json_content body) = true ->
        is_Some (json_title body) \/ is_Some (json_content body) ->
        app now (PUT_note i body) db = (db, not_found))
  /\ (forall j db0, app now (PUT_note j (mkJsonBody None None)) db0 = (db0, no_fields)).
Proof.
  intros Hno. split; [reflexivity|]. split; [|reflexivity].
  intros Hi body Ht Hc Hsup.
  unfold app, parse_NoteUpdate. rewrite Ht, Hc. cbn [andb].
  by rewrite update_note_no_row.
Qed.

Lemma empty_payload_checked_before_lookup_witness :
  app 3 (PUT_note 9 (mkJsonBody None None)) (_ensure_schema None)
  = (_ensure_schema None, no_fields).
Proof.
  apply (empty_payload_checked_before_lookup 3 9 (_ensure_schema None)).
  intros r Hr. inversion Hr.
Defined.

(** ** What a request can do to the table *)

Lemma create_note_effect t c now db :
  NoteBase t c = true ->
  effect now db (POST_notes (mkJsonBody (Some t) (Some c)))
    (fst (create_note (mkNoteCreate t c) now db)).
Proof.
  intros Hv. destruct (Z_lt_le_dec (largest_rowid db) INT64_MAX) as [Hlt|Hge].
  - rewrite create_note_Return by done. by constructor.
  - unfold create_note. cbn [create_title create_content].
    rewrite insert_note_Raise by done. constructor.
Qed.

Lemma update_note_effect i body now db :
  from_option title_ok true (json_title body) = true ->
  from_option content_ok true (json_content body) = true ->
  effect now db (PUT_note i body)
    (fst (update_note i (mkNoteUpdate (json_title body) (json_content body)) now db)).
Proof.
  intros Ht Hc. unfold update_note. cbn [update_title update_content].
  destruct (bind_int i) as [i'|] eqn:Eb.
  - apply bind_int_Return in Eb as [_ ->].
    pose proof (effect_update now db i body Ht Hc) as H.
    destruct (select_by_id (notes db) i) eqn:Es;
      destruct (json_title body), (json_content body);
      cbn [fst]; try apply effect_none; exact H.
  - destruct (json_title body), (json_content body); apply effect_none.
Qed.

Lemma delete_note_effect now i db :
  effect now db (DELETE_note i) (fst (delete_note i db)).
Proof.
  rewrite delete_note_unfold.
  destruct (is_int64 i); [destruct (_ =? 0)|]; cbn [fst]; constructor.
Qed.

Lemma app_effect now req db : effect now db req (fst (app now req db)).
Proof.
  destruct req as [|limit offset|i|body|i body|i]; cbn [app fst];
    try apply effect_none.
  - unfold parse_NoteCreate.
    destruct body as [[t|] [c|]]; cbn [json_title json_content];
      try apply effect_none.
    destruct (NoteBase t c) eqn:Hv; [|apply effect_none].
    pose proof (create_note_effect t c now db Hv) as H.
    by destruct (create_note _ now db).
  - unfold parse_NoteUpdate.
    destruct (from_option title_ok true (json_title body)) eqn:Ht;
      [|apply effect_none].
    destruct (from_option content_ok true (json_content body)) eqn:Hc;
      [|apply effect_none].
    cbn [andb]. pose proof (update_note_effect i body now db Ht Hc) as H.
    by destruct (update_note i _ now db).
  - pose proof (delete_note_effect now i db) as H.
    by destruct (delete_note i db).
Qed.

(** A property of the database that every request keeps holds after any
    sequence of requests. *)
Lemma run_invariant (P : database -> Prop) :
  (forall now req db, P db -> P (fst (app now req db))) ->
  forall events db, P db -> P (fst (run events db)).
Proof.
  intros Hstep events. induction events as [|[now req] events IH]; intros db HP.
  - done.
  - cbn [run]. specialize (Hstep now req db HP).
    destruct (app now req db) as [db1 resp]. specialize (IH db1 Hstep).
    by destruct (run events db1).
Qed.

(** ** Validation: what is persisted fits [NoteBase] *)

Lemma NoteBase_lengths t c :
  NoteBase t c = true <->
  (1 <= String.length t <= 200)%nat /\ (1 <= String.length c)%nat.
Proof.
  unfold NoteBase, title_ok, content_ok.
  rewrite !andb_true_iff, !Nat.leb_le. tauto.
Qed.

Lemma set_row_valid t c now i r :
  from_option title_ok true t = true ->
  from_option content_ok true c = true ->
  NoteBase (row_title r) (row_content r) = true ->
  NoteBase (row_title (set_row t c now i r)) (row_content (set_row t c now i r)) = true.
Proof.
  intros Ht Hc Hv. unfold set_row. destruct (row_id r =? i); [|done].
  cbn [row_title row_content]. unfold NoteBase in *.
  apply andb_true_iff in Hv as [Hvt Hvc].
  by rewrite COALESCE_title_ok, COALESCE_content_ok.
Qed.

Lemma effect_valid_rows now db req db' :
  effect now db req db' -> valid_rows db -> valid_rows db'.
Proof.
  unfold valid_rows. intros [req0|t c Hv _|i body Ht Hc|i] H; cbn [notes fst delete_notes].
  - done.
  - apply Forall_app. split; [done|]. by constructor.
  - apply Forall_forall. intros r' Hr'. apply list_elem_of_In, in_map_iff in Hr'.
    destruct Hr' as (r & <- & Hr%list_elem_of_In).
    apply set_row_valid; [done|done|]. by eapply Forall_forall in H.
  - apply Forall_forall. intros r Hr. apply list_elem_of_In, filter_In in Hr.
    destruct Hr as [Hr%list_elem_of_In _]. by eapply Forall_forall in H.
Qed.

Lemma app_valid_rows now req db :
  valid_rows db -> valid_rows (fst (app now req db)).
Proof. apply effect_valid_rows with now req, app_effect. Qed.

Lemma NoteBase_empty_title c : NoteBase "" c = false.
Proof. reflexivity. Qed.

Lemma NoteBase_empty_content t : NoteBase t "" = false.
Proof. unfold NoteBase. apply andb_false_r. Qed.

(** C7.  Starting from a table whose rows fit [NoteBase] (the empty table of
    a fresh database for one), after any sequence of requests every row of
    the table has a title of 1 to 200 characters and a content of at least
    one character.  A POST or a PUT whose body carries an empty title or an
    empty content answers 422 and leaves the table exactly as it was. *)
Theorem persisted_notes_fit_NoteBase (events : list (Z * Request)) (db : database) :
  valid_rows db ->
  Forall (fun r => (1 <= String.length (row_title r) <= 200)%nat
                   /\ (1 <= String.length (row_content r))%nat)
         (notes (fst (run events db)))
  /\ (forall now body db0,
        json_title body = Some ""%string \/ json_content body = Some ""%string ->
        app now (POST_notes body) db0 = (db0, unprocessable)
        /\ (forall i, app now (PUT_note i body) db0 = (db0, unprocessable))).
Proof.
  intros Hv. split.
  - apply (run_invariant valid_rows app_valid_rows events) in Hv.
    unfold valid_rows in Hv. eapply Forall_impl; [exact Hv|].
    intros r Hr. by apply NoteBase_lengths.
  - intros now [t c] db0 H. cbn [json_title json_content] in H. split.
    + unfold app, parse_NoteCreate. cbn [json_title json_content].
      destruct H as [->| ->].
      * destruct c as [c|]; [|done]. by rewrite NoteBase_empty_title.
      * destruct t as [t|]; [|done]. by rewrite NoteBase_empty_content.
    + intros i. unfold app, parse_NoteUpdate. cbn [json_title json_content].
      destruct H as [->| ->]; [done|].
      cbn [from_option]. replace (content_ok "") with false by done.
      by rewrite andb_false_r.
Qed.

Lemma persisted_notes_fit_NoteBase_witness :
  Forall (fun r => (1 <= String.length (row_title r) <= 200)%nat
                   /\ (1 <= String.length (row_content r))%nat)
         (notes (fst (run [(1, POST_notes (mkJsonBody (Some "A"%string) (Some "B"%string)));
                           (2, POST_notes (mkJsonBody (Some ""%string) (Some "B"%string)));
                           (3, PUT_note 1 (mkJsonBody None (Some ""%string)))]
                          (_ensure_schema None)))).
Proof.
  apply (persisted_notes_fit_NoteBase
           [(1, POST_notes (mkJsonBody (Some "A"%string) (Some "B"%string)));
            (2, POST_notes (mkJsonBody (Some ""%string) (Some "B"%string)));
            (3, PUT_note 1 (mkJsonBody None (Some ""%string)))]
           (_ensure_schema None)).
  constructor.
Defined.

(** ** Timestamps *)




Lemma fmap_set_row_id t c now i (tbl : list Row) :
  row_id <$> map (set_row t c now i) tbl = row_id <$> tbl.
Proof.
  induction tbl as [|r tbl IH]; [done|]. cbn. by rewrite row_id_set_row, <- IH.
Qed.

Lemma fmap_set_row_created_at t c now i (tbl : list Row) :
  row_created_at <$> map (set_row t c now i) tbl = row_created_at <$> tbl.
Proof.
  induction tbl as [|r tbl IH]; [done|]. cbn. rewrite <- IH. f_equal.
  unfold set_row. by destruct (row_id r =? i).
Qed.

Lemma effect_rows_kept now db req db' :
  effect now db req db' -> rows_kept now req db db'.
Proof.
  intros [req0|t c _ _|i body _ _|i]; unfold rows_kept; cbn [notes fst delete_notes].
  - destruct req0; try done.
    exists []. by rewrite app_nil_r.
  - eexists. split; [done|]. by repeat constructor.
  - unfold update_notes. cbn [notes].
    by rewrite fmap_set_row_id, fmap_set_row_created_at.
  - intros r Hr. apply list_elem_of_In, filter_In in Hr.
    by destruct Hr as [Hr%list_elem_of_In _].
Qed.





(** ** Ids *)

Lemma app_POST now body db :
  app now (POST_notes body) db =
  match json_title body, json_content body with
  | Some t, Some c =>
      if NoteBase t c
      then if INT64_MAX <=? largest_rowid db
           then (db, exception_handler OperationalError)
           else (mkDatabase (notes db ++ [mkRow (largest_rowid db + 1) t c now now])
                            (largest_rowid db + 1),
                 mkResponse HTTP_201_CREATED
                            (NoteBody (mkNote (largest_rowid db + 1) t c now now)))
      else (db, unprocessable)
  | _, _ => (db, unprocessable)
  end.
Proof.
  unfold app, parse_NoteCreate.
  destruct (json_title body) as [t|], (json_content body) as [c|]; try done.
  destruct (NoteBase t c) eqn:Hv; [|done].
  destruct (INT64_MAX <=? largest_rowid db) eqn:E.
  - unfold create_note. cbn [create_title create_content].
    by rewrite insert_note_Raise by lia.
  - by rewrite create_note_Return by (done || lia).
Qed.

Lemma app_created_id now req db i :
  created_id (now, req, snd (app now req db)) = Some i ->
  i = largest_rowid db + 1 /\ sqlite_sequence (fst (app now req db)) = i.
Proof.
  destruct req as [|limit offset|j|body|j body|j]; try done.
  rewrite app_POST.
  destruct (json_title body) as [t|], (json_content body) as [c|]; try done.
  destruct (NoteBase t c); [|done].
  destruct (INT64_MAX <=? largest_rowid db); [done|].
  cbn. by intros [= <-].
Qed.

Lemma effect_sequence now db req db' :
  effect now db req db' -> sqlite_sequence db <= sqlite_sequence db'.
Proof.
  intros [req0|t c _ _|i body _ _|i]; cbn; try lia.
  pose proof (largest_rowid_sequence db). lia.
Qed.

Lemma effect_rowids_recorded now db req db' :
  effect now db req db' -> rowids_recorded db -> rowids_recorded db'.
Proof.
  unfold rowids_recorded.
  intros [req0|t c _ _|i body _ _|i] H; cbn [notes sqlite_sequence fst delete_notes].
  - done.
  - pose proof (largest_rowid_sequence db). apply Forall_app. split.
    + eapply Forall_impl; [exact H|]. intros r Hr. cbn beta in Hr. lia.
    + repeat constructor. cbn. lia.
  - unfold update_notes. cbn [notes sqlite_sequence].
    apply Forall_forall. intros r' Hr'. apply list_elem_of_In, in_map_iff in Hr'.
    destruct Hr' as (r & <- & Hr%list_elem_of_In). rewrite row_id_set_row.
    by eapply Forall_forall in H.
  - apply Forall_forall. intros r Hr. apply list_elem_of_In, filter_In in Hr.
    destruct Hr as [Hr%list_elem_of_In _]. by eapply Forall_forall in H.
Qed.

Lemma rowids_recorded_largest db :
  rowids_recorded db -> largest_rowid db = Z.max 0 (sqlite_sequence db).
Proof.
  unfold rowids_recorded, largest_rowid. intros H.
  assert (0 <= last_rowid (notes db) <= Z.max 0 (sqlite_sequence db)); [|lia].
  induction H as [|r tbl Hr _ IH]; simpl; lia.
Qed.

Lemma NoDup_filter_row_id (f : Row -> bool) (tbl : list Row) :
  NoDup (row_id <$> tbl) -> NoDup (row_id <$> List.filter f tbl).
Proof.
  induction tbl as [|r tbl IH]; [done|]. cbn. intros [Hr Htbl]%NoDup_cons.
  destruct (f r); [|auto]. cbn. apply NoDup_cons. split; [|auto].
  intros Hin. apply Hr. apply list_elem_of_fmap in Hin as (r' & -> & Hr').
  apply list_elem_of_fmap. exists r'. split; [done|].
  apply list_elem_of_In, filter_In in Hr'. apply list_elem_of_In. tauto.
Qed.

Lemma effect_primary_key now db req db' :
  effect now db req db' -> primary_key db -> primary_key db'.
Proof.
  unfold primary_key.
  intros [req0|t c _ _|i body _ _|i] H; cbn [notes fst delete_notes].
  - done.
  - rewrite fmap_app. apply NoDup_app. split; [done|]. split.
    + intros x Hx. cbn. intros ->%list_elem_of_singleton.
      apply list_elem_of_fmap in Hx as (r & E & Hr%largest_rowid_ge). lia.
    + cbn. apply NoDup_singleton.
  - unfold update_notes. cbn [notes]. by rewrite fmap_set_row_id.
  - by apply NoDup_filter_row_id.
Qed.

Lemma app_largest_rowid now req db :
  rowids_recorded db ->
  largest_rowid db <= largest_rowid (fst (app now req db)).
Proof.
  intros H. pose proof (app_effect now req db) as He.
  pose proof (effect_rowids_recorded _ _ _ _ He H) as H'.
  pose proof (effect_sequence _ _ _ _ He).
  rewrite !rowids_recorded_largest by done. lia.
Qed.

Lemma run_created_ids events : forall db,
  rowids_recorded db ->
  StronglySorted Z.lt (created_ids (snd (run events db)))
  /\ Forall (fun i => largest_rowid db < i) (created_ids (snd (run events db))).
Proof.
  induction events as [|[now req] events IH]; intros db Hrec.
  - split; constructor.
  - pose proof (app_effect now req db) as He.
    pose proof (app_largest_rowid now req db Hrec) as Hle.
    pose proof (app_created_id now req db) as Hid.
    cbn [run]. destruct (app now req db) as [db1 resp]. cbn [fst snd] in *.
    destruct (IH db1 (effect_rowids_recorded _ _ _ _ He Hrec)) as [Hs Hgt].
    destruct (run events db1) as [db2 log]. cbn [snd] in *.
    unfold created_ids in *. cbn [omap list_omap].
    assert (Hgt' : Forall (fun i => largest_rowid db < i) (omap created_id log)).
    { eapply Forall_impl; [exact Hgt|]. intros i Hi. cbn beta in Hi. lia. }
    destruct (created_id (now, req, resp)) as [i|]; [|done].
    destruct (Hid i eq_refl) as [-> Hseq].
    pose proof (largest_rowid_sequence db1). split.
    + constructor; [done|]. eapply Forall_impl; [exact Hgt|].
      intros i Hi. cbn beta in Hi. lia.
    + constructor; [lia | done].
Qed.

Lemma StronglySorted_lt_NoDup (l : list Z) : StronglySorted Z.lt l -> NoDup l.
Proof.
  induction 1 as [|x l _ IH Hx]; constructor; [|done].
  intros Hin. eapply Forall_forall in Hx; [|exact Hin]. lia.
Qed.

(** C9.  Starting from a table with distinct ids all recorded by
    AUTOINCREMENT, over any sequence of requests: the ids given to the notes
    created are strictly increasing in order of creation, hence pairwise
    distinct; each is positive and larger than every id of the starting table
    and than every id handed out before; the ids of the table stay distinct.
    No request changes the id of a row that is there: a PUT leaves the
    sequence of ids as it is, a POST only adds rows, the rows left by a
    DELETE are rows that were there, a GET changes nothing. *)
Theorem ids_unique_immutable_increasing (events : list (Z * Request)) (db : database) :
  rowids_recorded db ->
  primary_key db ->
  StronglySorted Z.lt (created_ids (snd (run events db)))
  /\ NoDup (created_ids (snd (run events db)))
  /\ Forall (fun i => 0 < i /\ sqlite_sequence db < i
                      /\ forall r, r ∈ notes db -> row_id r < i)
            (created_ids (snd (run events db)))
  /\ primary_key (fst (run events db))
  /\ (forall now req db0, rows_kept now req db0 (fst (app now req db0))).
Proof.
  intros Hrec Hpk. destruct (run_created_ids events db Hrec) as [Hs Hgt].
  split; [done|]. split; [by apply StronglySorted_lt_NoDup|].
  split; [|split].
  - eapply Forall_impl; [exact Hgt|]. intros i Hi. cbn beta in Hi.
    pose proof (largest_rowid_nonneg db). pose proof (largest_rowid_sequence db).
    repeat split; try lia. intros r Hr%largest_rowid_ge. lia.
  - apply (run_invariant primary_key); [|done].
    intros now req db0. apply effect_primary_key with now req, app_effect.
  - intros now req db0. apply effect_rows_kept, app_effect.
Qed.

Lemma ids_unique_immutable_increasing_witness :
  StronglySorted Z.lt
    (created_ids (snd (run [(1, POST_notes (mkJsonBody (Some "A"%string) (Some "B"%string)));
                            (2, DELETE_note 1);
                            (3, POST_notes (mkJsonBody (Some "C"%string) (Some "D"%string)))]
                           (_ensure_schema None)))).
Proof.
  apply (ids_unique_immutable_increasing
           [(1, POST_notes (mkJsonBody (Some "A"%string) (Some "B"%string)));
            (2, DELETE_note 1);
            (3, POST_notes (mkJsonBody (Some "C"%string) (Some "D"%string)))]
           (_ensure_schema None)).
  - constructor.
  - constructor.
Defined.

(** ** Read after write *)

Lemma stored_lookup db i :
  stored db !! i = note_of_row <$> select_by_id (notes db) i.
Proof.
  unfold stored, select_by_id. induction (notes db) as [|r tbl IH]; [done|].
  cbn [fmap list_fmap list_to_map foldr find].
  destruct (row_id r =? i) eqn:E.
  - apply Z.eqb_eq in E as <-. cbn. by rewrite lookup_insert_eq.
  - apply Z.eqb_neq in E. cbn. by rewrite lookup_insert_ne.
Qed.

Lemma get_note_stored i db n :
  valid_rows db -> int64_rowids db ->
  get_note i db = Return n <-> stored db !! i = Some n.
Proof.
  intros Hv Hi. rewrite stored_lookup. split.
  - intros (r & _ & -> & _ & ->)%get_note_Return. done.
  - destruct (select_by_id (notes db) i) as [r|] eqn:Es; [|done].
    intros [= <-]. destruct (select_by_id_Some _ _ _ Es) as [Hr <-].
    rewrite get_note_unfold, Es.
    eapply Forall_forall in Hi; [|exact Hr]. eapply Forall_forall in Hv; [|exact Hr].
    cbn beta in Hi, Hv. by rewrite Hi, _row_to_note_valid.
Qed.

Lemma effect_int64_rowids now db req db' :
  effect now db req db' -> int64_rowids db -> int64_rowids db'.
Proof.
  unfold int64_rowids.
  intros [req0|t c _ Hfree|i body _ _|i] H; cbn [notes fst delete_notes].
  - done.
  - apply Forall_app. split; [done|]. repeat constructor. cbn [row_id].
    pose proof (largest_rowid_nonneg db). apply is_int64_rowid; lia.
  - unfold update_notes. cbn [notes].
    apply Forall_forall. intros r' Hr'. apply list_elem_of_In, in_map_iff in Hr'.
    destruct Hr' as (r & <- & Hr%list_elem_of_In). rewrite row_id_set_row.
    by eapply Forall_forall in H.
  - apply Forall_forall. intros r Hr. apply list_elem_of_In, filter_In in Hr.
    destruct Hr as [Hr%list_elem_of_In _]. by eapply Forall_forall in H.
Qed.

Lemma app_PUT_found now i body db r :
  valid_rows db ->
  from_option title_ok true (json_title body) = true ->
  from_option content_ok true (json_content body) = true ->
  is_Some (json_title body) \/ is_Some (json_content body) ->
  is_int64 i = true ->
  select_by_id (notes db) i = Some r ->
  app now (PUT_note i body) db =
  (update_notes (json_title body) (json_content body) now i db,
   mkResponse HTTP_200_OK
     (NoteBody (note_of_row (set_row (json_title body) (json_content body) now i r)))).
Proof.
  intros Hv Ht Hc Hsup Hi Hr.
  unfold app, parse_NoteUpdate. rewrite Ht, Hc. cbn [andb].
  rewrite (update_note_found _ _ _ _ _ r) by done.
  rewrite _row_to_note_valid; [done|].
  apply set_row_valid; [done|done|].
  destruct (select_by_id_Some _ _ _ Hr) as [Hin _].
  by eapply Forall_forall in Hv.
Qed.

(** Every answer to a PUT that is not the 200 of [app_PUT_found] leaves the
    database alone and has another status. *)
Lemma app_PUT_otherwise now i body db :
  (from_option title_ok true (json_title body)
   && from_option content_ok true (json_content body) = false)
  \/ (json_title body = None /\ json_content body = None)
  \/ is_int64 i = false
  \/ select_by_id (notes db) i = None ->
  fst (app now (PUT_note i body) db) = db
  /\ status_code (snd (app now (PUT_note i body) db)) <> HTTP_200_OK.
Proof.
  intros H. unfold app, parse_NoteUpdate.
  destruct (from_option title_ok true (json_title body)
            && from_option content_ok true (json_content body)) eqn:Ev;
    [|done].
  unfold update_note. cbn [update_title update_content].
  destruct (json_title body) as [t|] eqn:Et, (json_content body) as [c|] eqn:Ec;
    try done.
  all: unfold bind_int; destruct (is_int64 i) eqn:Ei; [|done].
  all: destruct (select_by_id (notes db) i) eqn:Es; [|done].
  all: exfalso; destruct H as [?|[[? ?]|[?|?]]]; done.
Qed.

Lemma app_DELETE now i db :
  app now (DELETE_note i) db =
  if is_int64 i
  then match select_by_id (notes db) i with
       | None => (db, not_found)
       | Some _ => (fst (delete_notes i db),
                    mkResponse HTTP_204_NO_CONTENT NoContent)
       end
  else (db, exception_handler OverflowError).
Proof.
  unfold app. destruct (is_int64 i) eqn:Hi.
  - destruct (select_by_id (notes db) i) as [r|] eqn:Es.
    + rewrite delete_note_unfold, Hi.
      destruct (_ =? 0) eqn:E; [|done]. exfalso.
      apply select_by_id_Some in Es as [Hr Hid].
      destruct (List.filter _ (notes db)) eqn:Ef; [|done].
      by apply (proj2 (filter_same_id_none i (notes db)) Ef r).
    + rewrite delete_note_no_row; [done|done|].
      unfold no_row. by apply select_by_id_None.
  - by rewrite delete_note_unfold, Hi.
Qed.

Lemma stored_insert t c now db :
  stored (mkDatabase (notes db ++ [mkRow (largest_rowid db + 1) t c now now])
                     (largest_rowid db + 1))
  = <[largest_rowid db + 1 := mkNote (largest_rowid db + 1) t c now now]> (stored db).
Proof.
  apply map_eq. intros j. rewrite stored_lookup. cbn [notes].
  destruct (decide (largest_rowid db + 1 = j)) as [<-|Hj].
  - rewrite lookup_insert_eq, select_by_id_fresh by (cbn [row_id]; lia). done.
  - rewrite lookup_insert_ne by done.
    rewrite (select_by_id_insert_other db (largest_rowid db + 1))
      by (cbn [row_id]; lia).
    by rewrite stored_lookup.
Qed.

Lemma stored_update t c now i db :
  stored (update_notes t c now i db)
  = alter (fun n => mkNote (note_id n) (COALESCE t (note_title n))
                           (COALESCE c (note_content n)) (note_created_at n) now)
          i (stored db).
Proof.
  apply map_eq. intros j. rewrite stored_lookup. unfold update_notes. cbn [notes].
  rewrite select_by_id_update, lookup_alter.
  destruct (decide (i = j)) as [<-|Hj]; rewrite stored_lookup;
    destruct (select_by_id (notes db) _) as [r|] eqn:Es; try done;
    apply select_by_id_Some in Es as [_ Hid]; cbn; f_equal; unfold set_row.
  - by replace (row_id r =? i) with true by lia.
  - by replace (row_id r =? i) with false by lia.
Qed.

Lemma stored_delete i db :
  stored (fst (delete_notes i db)) = delete i (stored db).
Proof.
  apply map_eq. intros j. rewrite stored_lookup. cbn [delete_notes fst notes].
  rewrite select_by_id_delete, lookup_delete.
  destruct (decide (i = j)) as [<-|Hj].
  - by rewrite Z.eqb_refl.
  - replace (j =? i) with false by lia. by rewrite stored_lookup.
Qed.

(** One request: the table read as a map changes as the exchange says. *)
Lemma app_last_written now req db :
  valid_rows db ->
  stored (fst (app now req db))
  = last_written (stored db) (now, req, snd (app now req db)).
Proof.
  intros Hv. destruct req as [|limit offset|i|body|i body|i]; try done.
  - rewrite app_POST. cbn [last_written].
    destruct (json_title body) as [t|], (json_content body) as [c|]; try done.
    destruct (NoteBase t c); [|done].
    destruct (INT64_MAX <=? largest_rowid db); [done|].
    cbn [fst snd content status_code note_id]. apply stored_insert.
  - cbn [last_written].
    destruct (from_option title_ok true (json_title body)
              && from_option content_ok true (json_content body)) eqn:Ev.
    2:{ destruct (app_PUT_otherwise now i body db) as [-> Hs]; [by left|].
        by replace (_ =? HTTP_200_OK) with false by lia. }
    apply andb_true_iff in Ev as [Ht Hc].
    destruct (is_int64 i) eqn:Hi.
    2:{ destruct (app_PUT_otherwise now i body db) as [-> Hs]; [by right; right; left|].
        by replace (_ =? HTTP_200_OK) with false by lia. }
    destruct (select_by_id (notes db) i) as [r|] eqn:Es.
    2:{ destruct (app_PUT_otherwise now i body db) as [-> Hs]; [by right; right; right|].
        by replace (_ =? HTTP_200_OK) with false by lia. }
    destruct (json_title body) as [t|] eqn:Et.
    + rewrite <- Et in *.
      rewrite (app_PUT_found now i body db r) by (done || left; by rewrite Et).
      cbn [fst snd status_code]. apply stored_update.
    + destruct (json_content body) as [c|] eqn:Ec.
      * rewrite <- Et, <- Ec in *.
        rewrite (app_PUT_found now i body db r) by (done || right; by rewrite Ec).
        cbn [fst snd status_code]. apply stored_update.
      * destruct (app_PUT_otherwise now i body db) as [-> Hs]; [by right; left|].
        by replace (_ =? HTTP_200_OK) with false by lia.
  - rewrite app_DELETE. cbn [last_written].
    destruct (is_int64 i); [|done].
    destruct (select_by_id (notes db) i); [|done].
    cbn [fst snd status_code]. apply stored_delete.
Qed.

Lemma run_last_written events : forall db,
  valid_rows db ->
  stored (fst (run events db)) = foldl last_written (stored db) (snd (run events db)).
Proof.
  induction events as [|[now req] events IH]; intros db Hv; [done|].
  pose proof (app_last_written now req db Hv) as Hstep.
  pose proof (app_valid_rows now req db Hv) as Hv'.
  cbn [run]. destruct (app now req db) as [db1 resp]. cbn [fst snd] in *.
  specialize (IH db1 Hv'). destruct (run events db1) as [db2 log].
  cbn [fst snd foldl] in *. by rewrite <- Hstep.
Qed.

(** C4.  Starting from a table of valid rows with 64-bit ids, after any
    sequence of requests GET of an id answers 200 with a note exactly when
    that note is what was last written for the id: the title and content of
    the POST that created it, overwritten by the fields each later PUT
    supplied, created_at the clock reading of the POST and updated_at the
    clock reading of the last of these writes, and no DELETE since.  (For the
    rows of the starting table, what was last written is what they hold.) *)
Theorem get_returns_last_written (events : list (Z * Request)) (db : database) :
  valid_rows db ->
  int64_rowids db ->
  forall later i n,
    snd (app later (GET_note i) (fst (run events db)))
    = mkResponse HTTP_200_OK (NoteBody n)
    <-> foldl last_written (stored db) (snd (run events db)) !! i = Some n.
Proof.
  intros Hv Hi later i n. rewrite <- run_last_written by done.
  rewrite <- get_note_stored.
  - cbn [app snd]. destruct (get_note i (fst (run events db))) as [n'|e]; cbn.
    + split; by intros [= ->].
    + split; [|done]. by destruct e.
  - by apply (run_invariant valid_rows app_valid_rows).
  - apply (run_invariant int64_rowids); [|done].
    intros now req db0. apply effect_int64_rowids with now req, app_effect.
Qed.

Lemma get_returns_last_written_witness :
  snd (app 20 (GET_note 1)
         (fst (run [(10, POST_notes (mkJsonBody (Some "A"%string) (Some "B"%string)));
                    (11, POST_notes (mkJsonBody (Some "C"%string) (Some "D"%string)));
                    (12, PUT_note 1 (mkJsonBody (Some "A2"%string) None));
                    (13, DELETE_note 2)]
                   (_ensure_schema None))))
  = mkResponse HTTP_200_OK (NoteBody (mkNote 1 "A2" "B" 10 12)).
Proof.
  apply (get_returns_last_written
           [(10, POST_notes (mkJsonBody (Some "A"%string) (Some "B"%string)));
            (11, POST_notes (mkJsonBody (Some "C"%string) (Some "D"%string)));
            (12, PUT_note 1 (mkJsonBody (Some "A2"%string) None));
            (13, DELETE_note 2)]
           (_ensure_schema None)).
  - constructor.
  - constructor.
  - vm_compute. reflexivity.
Defined.


(** ** Configuration: comma-separated values *)

Section str_facts.

Variable isspace : N -> bool.

Abbreviation whitespace := (Forall (fun c => isspace c = true)).

Lemma lstrip_suffix s :
  exists pre, s = pre ++ lstrip isspace s /\ whitespace pre.
Proof.
  induction s as [|c s (pre & E & Hpre)]; cbn [lstrip].
  - by exists [].
  - destruct (isspace c) eqn:Hc.
    + exists (c :: pre). split; [by rewrite E at 1 | by constructor].
    + by exists [].
Qed.

Lemma lstrip_head s c : head (lstrip isspace s) = Some c -> isspace c = false.
Proof.
  induction s as [|c0 s IH]; cbn [lstrip]; [done|].
  destruct (isspace c0) eqn:Hc; [done|]. by intros [= <-].
Qed.

Lemma lstrip_id s :
  (forall c, head s = Some c -> isspace c = false) -> lstrip isspace s = s.
Proof. destruct s as [|c s]; [done|]. intros H. cbn. by rewrite (H c). Qed.

Lemma lstrip_whitespace s : whitespace s -> lstrip isspace s = [].
Proof. induction 1 as [|c s Hc _ IH]; cbn [lstrip]; [done|]. by rewrite Hc. Qed.

Lemma rstrip_prefix s :
  exists suf, s = rstrip isspace s ++ suf /\ whitespace suf.
Proof.
  unfold rstrip. destruct (lstrip_suffix (reverse s)) as (pre & E & Hpre).
  exists (reverse pre). split; [|by apply Forall_reverse].
  by rewrite <- reverse_app, <- E, reverse_involutive.
Qed.

Lemma rstrip_last s c : last (rstrip isspace s) = Some c -> isspace c = false.
Proof. unfold rstrip. rewrite last_reverse. apply lstrip_head. Qed.

Lemma rstrip_id s :
  (forall c, last s = Some c -> isspace c = false) -> rstrip isspace s = s.
Proof.
  intros H. unfold rstrip. rewrite lstrip_id; [apply reverse_involutive|].
  intros c. rewrite head_reverse. apply H.
Qed.

Lemma rstrip_head s c :
  head s = Some c -> isspace c = false -> head (rstrip isspace s) = Some c.
Proof.
  intros Hs Hc. destruct (rstrip_prefix s) as (suf & E & Hsuf).
  destruct (rstrip isspace s) as [|c' r] eqn:Er.
  - cbn in E. subst suf. destruct s as [|c0 s]; [done|].
    injection Hs as ->. apply Forall_cons in Hsuf as [Hc' _]. congruence.
  - rewrite E in Hs. by cbn in *.
Qed.

(** The string is its stripped part between two runs of whitespace. *)
Lemma strip_infix s :
  exists pre suf, s = pre ++ strip isspace s ++ suf
                  /\ whitespace pre /\ whitespace suf.
Proof.
  destruct (lstrip_suffix s) as (pre & E1 & Hpre).
  destruct (rstrip_prefix (lstrip isspace s)) as (suf & E2 & Hsuf).
  exists pre, suf. unfold strip. by rewrite <- E2.
Qed.

Lemma strip_stripped s : stripped isspace (strip isspace s).
Proof.
  split; intros c Hc; unfold strip in Hc.
  - destruct (rstrip_prefix (lstrip isspace s)) as (suf & E & _).
    apply (lstrip_head s). rewrite E.
    destruct (rstrip isspace (lstrip isspace s)); [done | by cbn in *].
  - by apply rstrip_last in Hc.
Qed.

Lemma strip_id s : stripped isspace s -> strip isspace s = s.
Proof. intros [Hh Hl]. unfold strip. by rewrite lstrip_id, rstrip_id. Qed.

Lemma strip_nil s : strip isspace s = [] <-> whitespace s.
Proof.
  split.
  - intros E. destruct (strip_infix s) as (pre & suf & Es & Hpre & Hsuf).
    rewrite E in Es. rewrite Es. by apply Forall_app.
  - intros H. unfold strip. by rewrite lstrip_whitespace.
Qed.

Lemma truthy_false s : truthy s = false <-> s = [].
Proof. by destruct s. Qed.

Lemma truthy_true s : truthy s = true <-> s <> [].
Proof. by destruct s. Qed.

Lemma split_not_nil sep s : split sep s <> [].
Proof.
  destruct s as [|c s]; cbn [split]; [done|].
  destruct (c =? sep)%N; [done|]. by destruct (split sep s).
Qed.

Lemma split_no_sep sep s : Forall (Forall (fun c => c <> sep)) (split sep s).
Proof.
  induction s as [|c s IH]; cbn [split]; [by repeat constructor|].
  destruct (c =? sep)%N eqn:E; [by constructor|].
  apply N.eqb_neq in E.
  destruct (split sep s) as [|w ws]; [by repeat constructor|].
  apply Forall_cons in IH as [Hw Hws]. by repeat constructor.
Qed.

Lemma split_cover sep s c :
  c ∈ s -> c = sep \/ exists w, w ∈ split sep s /\ c ∈ w.
Proof.
  induction s as [|c0 s IH]; [by intros ?%elem_of_nil|].
  intros [->|Hc]%elem_of_cons; cbn [split].
  - destruct (c0 =? sep)%N eqn:E; [left; by apply N.eqb_eq|]. right.
    destruct (split sep s) as [|w ws]; eexists; (split; [left|left]).
  - destruct (IH Hc) as [->|(w & Hw & Hcw)]; [by left|]. right.
    destruct (c0 =? sep)%N; [exists w; split; [by right | done]|].
    destruct (split sep s) as [|w0 ws]; [by apply elem_of_nil in Hw|].
    apply elem_of_cons in Hw as [->|Hw].
    + exists (c0 :: w0). split; [left | by right].
    + exists w. split; [by right | done].
Qed.

Lemma split_sub sep s w c : w ∈ split sep s -> c ∈ w -> c ∈ s.
Proof.
  revert w. induction s as [|c0 s IH]; intros w; cbn [split].
  - intros ->%list_elem_of_singleton. by intros ?%elem_of_nil.
  - destruct (c0 =? sep)%N.
    + intros [->|Hw]%elem_of_cons Hc; [by apply elem_of_nil in Hc|].
      right. by apply (IH w).
    + destruct (split sep s) as [|w0 ws].
      * intros ->%list_elem_of_singleton ->%list_elem_of_singleton. left.
      * intros [->|Hw]%elem_of_cons Hc.
        -- apply elem_of_cons in Hc as [->|Hc]; [left|right].
           apply (IH w0); [left | done].
        -- right. apply (IH w); [by right | done].
Qed.

Lemma split_piece sep w :
  Forall (fun c => c <> sep) w -> split sep w = [w].
Proof.
  induction 1 as [|c w Hc _ IH]; cbn [split]; [done|].
  apply N.eqb_neq in Hc. by rewrite Hc, IH.
Qed.

Lemma split_app_sep sep w s :
  Forall (fun c => c <> sep) w ->
  split sep (w ++ sep :: s) = w :: split sep s.
Proof.
  induction 1 as [|c w Hc _ IH]; simpl.
  - by rewrite N.eqb_refl.
  - apply N.eqb_neq in Hc. by rewrite Hc, IH.
Qed.

Lemma split_join sep pieces :
  pieces <> [] ->
  Forall (Forall (fun c => c <> sep)) pieces ->
  split sep (join [sep] pieces) = pieces.
Proof.
  intros Hne H. induction H as [|w ws Hw Hws IH]; [done|].
  destruct ws as [|w' ws]; cbn [join].
  - by apply split_piece.
  - simpl. rewrite split_app_sep by done. f_equal. by apply IH.
Qed.

Lemma join_nil_iff sep pieces :
  Forall (fun w => w <> []) pieces -> join sep pieces = [] -> pieces = [].
Proof.
  intros H. destruct H as [|w ws Hw _]; [done|].
  destruct ws; cbn [join]; [done|]. by destruct w.
Qed.

Lemma filter_nothing {A : Type} (f : A -> bool) (l : list A) :
  (forall x, x ∈ l -> f x = false) -> List.filter f l = [].
Proof.
  induction l as [|x l IH]; intros H; [done|]. cbn [List.filter].
  rewrite (H x) by left. apply IH. intros y Hy. apply H. by right.
Qed.

(** What the comprehension of [_parse_csv_env] keeps of the pieces. *)
Lemma _parse_csv_env_Some s :
  s <> [] ->
  _parse_csv_env isspace (Some s) =
  strip isspace <$> List.filter (fun v => truthy (strip isspace v)) (split comma s).
Proof. by destruct s. Qed.

Lemma _parse_csv_env_elem value v :
  v ∈ _parse_csv_env isspace value ->
  exists s w, value = Some s /\ w ∈ split comma s /\ v = strip isspace w /\ v <> [].
Proof.
  destruct value as [s|]; [|by intros ?%elem_of_nil].
  destruct s as [|c s]; [by intros ?%elem_of_nil|].
  rewrite _parse_csv_env_Some by done.
  intros (w & -> & Hw)%list_elem_of_fmap.
  apply list_elem_of_In, filter_In in Hw as [Hw%list_elem_of_In Ht].
  exists (c :: s), w. by rewrite <- truthy_true.
Qed.

Lemma parsed_value value v :
  v ∈ _parse_csv_env isspace value ->
  v <> [] /\ Forall (fun c => c <> comma) v /\ stripped isspace v.
Proof.
  intros Hv.
  apply _parse_csv_env_elem in Hv as (s & w & -> & Hw & -> & Hne).
  split; [done|]. split; [|apply strip_stripped].
  pose proof (split_no_sep comma s) as Hsep.
  eapply Forall_forall in Hsep; [|exact Hw].
  destruct (strip_infix w) as (pre & suf & E & _). rewrite E in Hsep.
  by apply Forall_app in Hsep as [_ [? _]%Forall_app].
Qed.

(** X1.  Every value [_parse_csv_env] returns is not empty, contains no
    comma, and neither starts nor ends with whitespace. *)
Theorem _parse_csv_env_values (value : option (list N)) :
  Forall (fun v => v <> [] /\ Forall (fun c => c <> comma) v /\ stripped isspace v)
         (_parse_csv_env isspace value).
Proof. apply Forall_forall. intros v Hv. by apply (parsed_value value). Qed.

Lemma parsed_nothing (value : option (list N)) :
  _parse_csv_env isspace value = []
  <-> match value with
      | None => True
      | Some s => Forall (fun c => c = comma \/ isspace c = true) s
      end.
Proof.
  destruct value as [s|]; [|done].
  destruct s as [|c0 s0]; [by split; [constructor|]|].
  rewrite _parse_csv_env_Some by done. set (s := c0 :: s0). split.
  - intros E. apply fmap_nil_inv in E. apply Forall_forall. intros c Hc.
    destruct (split_cover comma s c Hc) as [->|(w & Hw & Hcw)]; [by left|]. right.
    assert (Hs : strip isspace w = []).
    { destruct (truthy (strip isspace w)) eqn:Ht; [|by apply truthy_false].
      assert (Hin : In w (List.filter (fun v => truthy (strip isspace v)) (split comma s)))
        by (apply filter_In; split; [by apply list_elem_of_In | done]).
      rewrite E in Hin. destruct Hin. }
    apply strip_nil in Hs. by eapply Forall_forall in Hs.
  - intros H. rewrite filter_nothing; [done|]. intros w Hw.
    apply truthy_false, strip_nil, Forall_forall. intros c Hc.
    pose proof (split_no_sep comma s) as Hsep.
    eapply Forall_forall in Hsep; [|exact Hw].
    eapply Forall_forall in Hsep; [|exact Hc].
    eapply Forall_forall in H; [|exact (split_sub _ _ _ _ Hw Hc)].
    by destruct H.
Qed.

(** X2.  [_parse_csv_env] returns no value exactly when the variable is not
    set or its value consists of commas and whitespace only (the empty value
    included): a value such as " , ,, " counts as no value at all. *)
Theorem _parse_csv_env_nothing (value : option (list N)) :
  _parse_csv_env isspace value = [] <-> blank isspace value.
Proof. unfold blank. apply parsed_nothing. Qed.

(** X3.  The values [_parse_csv_env] returns, written back with commas
    between them, parse to themselves: parsing normalises a value, and a
    normalised value is left as it is. *)
Theorem _parse_csv_env_join (value : option (list N)) :
  _parse_csv_env isspace (Some (join [comma] (_parse_csv_env isspace value)))
  = _parse_csv_env isspace value.
Proof.
  assert (H : Forall (fun v => v <> [] /\ Forall (fun c => c <> comma) v
                               /\ stripped isspace v)
                     (_parse_csv_env isspace value))
    by (apply Forall_forall; intros v Hv; by apply (parsed_value value)).
  set (vs := _parse_csv_env isspace value) in *.
  destruct (decide (vs = [])) as [->|Hne]; [done|].
  assert (Hj : join [comma] vs <> []).
  { intros E. apply Hne. eapply join_nil_iff; [|exact E].
    eapply Forall_impl; [exact H|]. by intros v [? _]. }
  rewrite _parse_csv_env_Some by done.
  rewrite split_join; [|done|by eapply Forall_impl; [exact H|]; intros v (_ & ? & _)].
  clear Hne Hj. induction H as [|v vs (Hv & _ & Hs) _ IH]; [done|].
  cbn [List.filter]. rewrite (strip_id v Hs).
  apply truthy_true in Hv. rewrite Hv. cbn [fmap list_fmap].
  rewrite (strip_id v Hs). f_equal. exact IH.
Qed.

End str_facts.

(** ** Configuration: CORS lists and the database path *)

Lemma or_star_parse isspace value :
  (blank isspace value ->
   or_star (_parse_csv_env isspace value) = [codepoints "*"])
  /\ (~ blank isspace value ->
      or_star (_parse_csv_env isspace value) = _parse_csv_env isspace value)
  /\ Forall (fun v => v <> []) (or_star (_parse_csv_env isspace value)).
Proof.
  pose proof (parsed_nothing isspace value) as Hb. fold (blank isspace value) in Hb.
  assert (Hv : Forall (fun v => v <> []) (_parse_csv_env isspace value))
    by (apply Forall_forall; intros v Hv; by apply (parsed_value isspace value)).
  destruct (_parse_csv_env isspace value) as [|v vs] eqn:E; cbn [or_star].
  - split; [done|]. split; [intros H; by destruct H; apply Hb|].
    by repeat constructor.
  - split; [intros H%Hb; done|]. by split.
Qed.

(** X4.  The CORS lists are never empty and hold no empty entry.  Where the
    variable is not set, or is set to nothing but commas and whitespace, the
    list is the wildcard ["*"]; otherwise it is what [_parse_csv_env] makes
    of the value.  So a value left blank allows every origin, header or
    method. *)
Theorem cors_lists_fall_back_to_wildcard (isspace : N -> bool) (env : environ) :
  let lists :=
    [(allowed_origins isspace env, env "ALLOWED_ORIGINS"%string);
     (allowed_headers isspace env, env "ALLOWED_HEADERS"%string);
     (allowed_methods isspace env, env "ALLOWED_METHODS"%string)] in
  Forall (fun '(allowed, value) =>
            allowed <> []
            /\ Forall (fun v => v <> []) allowed
            /\ (blank isspace value -> allowed = [codepoints "*"])
            /\ (~ blank isspace value -> allowed = _parse_csv_env isspace value))
         lists.
Proof.
  cbv zeta. unfold allowed_origins, allowed_headers, allowed_methods.
  repeat constructor;
    match goal with
    | |- context [env ?k] =>
        destruct (or_star_parse isspace (env k)) as (Hb & Hn & Hv)
    end; try done.
  all: intros E; rewrite E in Hv; destruct (env _) as [s|];
    try by (rewrite Hb in E by done).
  all: destruct (decide (blank isspace (Some s))) as [Hbl|Hbl];
    [by rewrite Hb in E | rewrite (Hn Hbl) in E].
  all: by apply (parsed_nothing isspace (Some s)) in E.
Qed.

(** X5.  [_get_db_path] never returns the empty path: it is the value of
    SQLITE_DB where that is set and not empty, and the workspace path
    otherwise, also where SQLITE_DB is set to the empty string. *)
Theorem _get_db_path_not_empty (env : environ) :
  _get_db_path env <> []
  /\ (forall env_path, env "SQLITE_DB"%string = Some env_path -> env_path <> [] ->
      _get_db_path env = env_path)
  /\ (env "SQLITE_DB"%string = Some [] \/ env "SQLITE_DB"%string = None ->
      _get_db_path env = _get_db_path (fun _ => None)).
Proof.
  unfold _get_db_path. split; [|split].
  - destruct (env _) as [[|c p]|]; done.
  - intros p -> Hp. by destruct p.
  - by intros [-> | ->].
Qed.

(** ** List: pages *)

Lemma is_int64_range v : INT64_MIN <= v <= INT64_MAX -> is_int64 v = true.
Proof. intros H. unfold is_int64. apply andb_true_iff. lia. Qed.

Lemma app_GET_notes now limit offset db :
  valid_rows db ->
  1 <= default 100 limit <= 500 ->
  0 <= default 0 offset <= INT64_MAX ->
  app now (GET_notes limit offset) db =
  (db, mkResponse HTTP_200_OK
         (NoteList (take (Z.to_nat (default 100 limit))
                      (drop (Z.to_nat (default 0 offset))
                         (note_of_row <$> merge_sort order_by (notes db)))))).
Proof.
  intros Hv Hl Ho. unfold app, Query_limit.
  replace ((1 <=? default 100 limit) && (default 100 limit <=? 500)) with true
    by (symmetry; apply andb_true_iff; lia).
  rewrite Query_offset_Return by (pose proof INT64_MAX_parses; lia).
  cbn [mbind result_bind].
  rewrite list_notes_Return; [|done|apply is_int64_range|apply is_int64_range];
    try (unfold INT64_MIN, INT64_MAX in *; lia).
  by rewrite limit_offset_valid by lia.
Qed.

(** X6.  A page never holds more notes than its limit: on a table of valid
    rows, a GET of the list with a valid limit and offset answers 200 with
    exactly min(limit, rows - offset) notes (none when the offset is at or
    past the number of rows), so with at most 500. *)
Theorem list_notes_page_size (now : Z) (limit offset : option Z) (db : database) :
  valid_rows db ->
  1 <= default 100 limit <= 500 ->
  0 <= default 0 offset <= INT64_MAX ->
  exists ns,
    app now (GET_notes limit offset) db = (db, mkResponse HTTP_200_OK (NoteList ns))
    /\ length ns = (Z.to_nat (default 100%Z limit)
                    `min` (length (notes db) - Z.to_nat (default 0%Z offset)))%nat
    /\ (length ns <= Z.to_nat (default 100%Z limit) <= 500)%nat.
Proof.
  intros Hv Hl Ho. eexists. split; [by apply app_GET_notes|].
  rewrite length_take, length_drop, length_fmap.
  rewrite (Permutation_length (merge_sort_Permutation order_by (notes db))).
  split; lia.
Qed.

Lemma list_notes_page_size_witness :
  exists ns,
    app 9 (GET_notes (Some 2) (Some 1))
        (mkDatabase [mkRow 1 "a" "x" 1 1; mkRow 2 "b" "y" 2 2; mkRow 3 "c" "z" 3 3;
                     mkRow 4 "d" "w" 4 4] 4)
    = (mkDatabase [mkRow 1 "a" "x" 1 1; mkRow 2 "b" "y" 2 2; mkRow 3 "c" "z" 3 3;
                   mkRow 4 "d" "w" 4 4] 4,
       mkResponse HTTP_200_OK (NoteList ns))
    /\ length ns = 2%nat.
Proof.
  destruct (list_notes_page_size 9 (Some 2) (Some 1)
              (mkDatabase [mkRow 1 "a" "x" 1 1; mkRow 2 "b" "y" 2 2;
                           mkRow 3 "c" "z" 3 3; mkRow 4 "d" "w" 4 4] 4))
    as (ns & Happ & Hlen & _).
  - repeat constructor.
  - simpl. lia.
  - simpl. unfold INT64_MAX. lia.
  - exists ns. split; [exact Happ | exact Hlen].
Defined.

(** X7.  The query parameters are checked before any statement runs: a limit
    outside 1..500, a negative offset, or an offset of more than 4300 digits
    answers 422, whatever the other parameter and the table; with a valid
    limit, every offset above the largest SQLite integer that the parser
    still takes (4300 digits at most) answers 500.  The database is left as
    it is. *)
Theorem list_notes_rejects_out_of_range (now : Z) (limit offset : option Z)
    (db : database) :
  (~ (1 <= default 100 limit <= 500) \/ default 0 offset < 0
   \/ INT_PARSING_BOUND <= default 0 offset ->
   app now (GET_notes limit offset) db = (db, unprocessable))
  /\ (1 <= default 100 limit <= 500 ->
      INT64_MAX < default 0 offset < INT_PARSING_BOUND ->
      app now (GET_notes limit offset) db
      = (db, mkResponse HTTP_500_INTERNAL_SERVER_ERROR (Detail "Internal Server Error"))).
Proof.
  split.
  - intros H. unfold app, Query_limit.
    destruct ((1 <=? default 100 limit) && (default 100 limit <=? 500)) eqn:El;
      [|done].
    apply andb_true_iff in El. destruct H as [H|H]; [lia|].
    by rewrite Query_offset_Raise.
  - intros Hl Ho. unfold app, Query_limit.
    replace ((1 <=? default 100 limit) && (default 100 limit <=? 500)) with true
      by (symmetry; apply andb_true_iff; lia).
    assert (0 <= default 0 offset) by (unfold INT64_MAX in Ho; lia).
    rewrite Query_offset_Return by lia.
    cbn [mbind result_bind]. unfold list_notes.
    rewrite (bind_int_int64 (default 100 limit))
      by (apply is_int64_range; unfold INT64_MIN, INT64_MAX; lia).
    cbn [mbind result_bind]. unfold bind_int, is_int64.
    replace (default 0 offset <=? INT64_MAX) with false by lia.
    by rewrite andb_false_r.
Qed.

(** X8.  Pages fit together: on an unchanged table, the page of [a] notes at
    an offset followed by the page of [b] notes at that offset plus [a] is
    the page of [a + b] notes at the offset; paging through the list neither
    skips nor repeats a note. *)
Theorem list_notes_pages_concatenate (now : Z) (a b offset : Z) (db : database) :
  valid_rows db ->
  1 <= a -> 1 <= b -> a + b <= 500 ->
  0 <= offset -> offset + a <= INT64_MAX ->
  exists page1 page2,
    app now (GET_notes (Some a) (Some offset)) db
    = (db, mkResponse HTTP_200_OK (NoteList page1))
    /\ app now (GET_notes (Some b) (Some (offset + a))) db
       = (db, mkResponse HTTP_200_OK (NoteList page2))
    /\ app now (GET_notes (Some (a + b)) (Some offset)) db
       = (db, mkResponse HTTP_200_OK (NoteList (page1 ++ page2))).
Proof.
  intros Hv Ha Hb Hab Ho Hoa. eexists _, _.
  rewrite !app_GET_notes by (done || simpl; lia).
  split; [done|]. split; [done|]. simpl default. do 3 f_equal.
  rewrite !Z2Nat.inj_add by lia.
  by rewrite <- take_take_drop, drop_drop.
Qed.

Lemma list_notes_pages_concatenate_witness :
  exists page1 page2,
    app 9 (GET_notes (Some 1) (Some 1))
        (mkDatabase [mkRow 1 "a" "x" 1 1; mkRow 2 "b" "y" 2 2; mkRow 3 "c" "z" 3 3] 3)
    = (mkDatabase [mkRow 1 "a" "x" 1 1; mkRow 2 "b" "y" 2 2; mkRow 3 "c" "z" 3 3] 3,
       mkResponse HTTP_200_OK (NoteList page1))
    /\ app 9 (GET_notes (Some 3) (Some 1))
        (mkDatabase [mkRow 1 "a" "x" 1 1; mkRow 2 "b" "y" 2 2; mkRow 3 "c" "z" 3 3] 3)
       = (mkDatabase [mkRow 1 "a" "x" 1 1; mkRow 2 "b" "y" 2 2; mkRow 3 "c" "z" 3 3] 3,
          mkResponse HTTP_200_OK (NoteList (page1 ++ page2))).
Proof.
  destruct (list_notes_pages_concatenate 9 1 2 1
              (mkDatabase [mkRow 1 "a" "x" 1 1; mkRow 2 "b" "y" 2 2;
                           mkRow 3 "c" "z" 3 3] 3))
    as (page1 & page2 & H1 & _ & H3);
    [repeat constructor | lia | lia | lia | lia | unfold INT64_MAX; lia |].
  exists page1, page2. split; [exact H1 | exact H3].
Defined.

(** ** List: what decides the order *)

Lemma NoDup_row_id_inj (tbl : list Row) r1 r2 :
  NoDup (row_id <$> tbl) -> r1 ∈ tbl -> r2 ∈ tbl -> row_id r1 = row_id r2 -> r1 = r2.
Proof.
  induction tbl as [|r tbl IH]; [by intros _ ?%elem_of_nil|].
  cbn. intros [Hr Hnd]%NoDup_cons H1 H2 E.
  apply elem_of_cons in H1 as [->|H1]; apply elem_of_cons in H2 as [->|H2].
  - done.
  - exfalso. apply Hr. rewrite E. apply list_elem_of_fmap. eauto.
  - exfalso. apply Hr. rewrite <- E. apply list_elem_of_fmap. eauto.
  - by apply IH.
Qed.

Lemma merge_sort_order_by_unique (tbl1 tbl2 : list Row) :
  tbl1 ≡ₚ tbl2 -> NoDup (row_id <$> tbl1) ->
  merge_sort order_by tbl1 = merge_sort order_by tbl2.
Proof.
  intros Hp Hnd. apply (StronglySorted_unique_strong order_by).
  - intros r1 r2 H1 H2 H12 H21.
    rewrite merge_sort_Permutation in H1. rewrite merge_sort_Permutation, <- Hp in H2.
    apply (NoDup_row_id_inj tbl1); [done..|]. unfold order_by in *. lia.
  - apply StronglySorted_merge_sort; apply _.
  - apply StronglySorted_merge_sort; apply _.
  - by rewrite !merge_sort_Permutation.
Qed.

(** X9.  With distinct ids, a listing depends on the rows of the table only,
    not on the order they are stored in: two tables with the same rows answer
    every GET of the list alike.  (The tie-break on id makes the order of
    ORDER BY total.) *)
Theorem list_notes_ignores_storage_order (now : Z) (limit offset : option Z)
    (db1 db2 : database) :
  primary_key db1 ->
  notes db1 ≡ₚ notes db2 ->
  snd (app now (GET_notes limit offset) db1)
  = snd (app now (GET_notes limit offset) db2).
Proof.
  intros Hpk Hp. cbn [app snd]. unfold list_notes, select_page.
  by rewrite (merge_sort_order_by_unique _ _ Hp Hpk).
Qed.

Lemma list_notes_ignores_storage_order_witness :
  snd (app 5 (GET_notes None None)
         (mkDatabase [mkRow 1 "a" "x" 3 3; mkRow 2 "b" "y" 3 3; mkRow 3 "c" "z" 1 4] 3))
  = snd (app 5 (GET_notes None None)
           (mkDatabase [mkRow 2 "b" "y" 3 3; mkRow 3 "c" "z" 1 4; mkRow 1 "a" "x" 3 3] 3)).
Proof.
  apply (list_notes_ignores_storage_order 5 None None
           (mkDatabase [mkRow 1 "a" "x" 3 3; mkRow 2 "b" "y" 3 3; mkRow 3 "c" "z" 1 4] 3)
           (mkDatabase [mkRow 2 "b" "y" 3 3; mkRow 3 "c" "z" 1 4; mkRow 1 "a" "x" 3 3] 3)).
  - unfold primary_key. cbn. apply NoDup_ListNoDup. repeat constructor; cbn; intuition lia.
  - cbn [notes]. apply (Permutation_cons_append [_; _] _).
Defined.



(** ** Delete and update on a note that is there *)

Lemma length_delete_primary_key i (tbl : list Row) r :
  NoDup (row_id <$> tbl) -> r ∈ tbl -> row_id r = i ->
  S (length (List.filter (fun r => negb (row_id r =? i)) tbl)) = length tbl.
Proof.
  induction tbl as [|r0 tbl IH]; [by intros _ ?%elem_of_nil|].
  cbn. intros [Hr0 Hnd]%NoDup_cons Hr Hid.
  destruct (row_id r0 =? i) eqn:E; cbn.
  - rewrite filter_other_id_all; [lia|].
    intros r' Hr' E'. apply Hr0. apply list_elem_of_fmap. exists r'.
    split; [lia | done].
  - apply elem_of_cons in Hr as [->|Hr]; [lia|]. rewrite <- (IH Hnd Hr Hid). lia.
Qed.

(** X11.  A DELETE of a note that is there answers 204 and removes that note
    and nothing else: GET of its id answers 404 afterwards, GET of every
    other id answers as before, the table has one row less (ids being
    distinct), and the AUTOINCREMENT counter stays where it was. *)
Theorem delete_removes_only_that_note (now : Z) (i : Z) (db : database) (n : Note) :
  get_note i db = Return n ->
  primary_key db ->
  exists db',
    app now (DELETE_note i) db = (db', mkResponse HTTP_204_NO_CONTENT NoContent)
    /\ get_note i db' = Raise (HTTPException HTTP_404_NOT_FOUND "Note not found")
    /\ (forall j, j <> i -> get_note j db' = get_note j db)
    /\ S (length (notes db')) = length (notes db)
    /\ sqlite_sequence db' = sqlite_sequence db.
Proof.
  intros (r & Hi & Hr & _ & _)%get_note_Return Hpk.
  exists (fst (delete_notes i db)). split; [|split; [|split; [|split]]].
  - by rewrite app_DELETE, Hi, Hr.
  - apply get_note_no_row; [done | apply no_row_after_delete].
  - intros j Hj. rewrite !get_note_unfold. cbn [delete_notes fst notes].
    rewrite select_by_id_delete. by replace (j =? i) with false by lia.
  - apply select_by_id_Some in Hr as [Hin Hid]. cbn [delete_notes fst notes].
    by apply (length_delete_primary_key i (notes db) r).
  - done.
Qed.

Lemma delete_removes_only_that_note_witness :
  exists db',
    app 9 (DELETE_note 2)
        (mkDatabase [mkRow 1 "a" "x" 1 1; mkRow 2 "b" "y" 2 2; mkRow 3 "c" "z" 3 3] 3)
    = (db', mkResponse HTTP_204_NO_CONTENT NoContent)
    /\ length (notes db') = 2%nat.
Proof.
  destruct (delete_removes_only_that_note 9 2
              (mkDatabase [mkRow 1 "a" "x" 1 1; mkRow 2 "b" "y" 2 2;
                           mkRow 3 "c" "z" 3 3] 3)
              (mkNote 2 "b" "y" 2 2))
    as (db' & Happ & _ & _ & Hlen & _).
  - reflexivity.
  - unfold primary_key. cbn. apply NoDup_ListNoDup. repeat constructor; cbn; intuition lia.
  - exists db'. split; [exact Happ|]. cbn in Hlen. lia.
Defined.





(** ** Requests that fail *)

(** X13.  A request that is answered with an error changes nothing: on a
    table of valid rows, whenever the status of the answer is 400 or above
    (400, 404, 422 or 500), the database after the request is the database
    before it.  No handler writes and then fails. *)
Theorem failed_request_changes_nothing (now : Z) (req : Request) (db : database) :
  valid_rows db ->
  400 <= status_code (snd (app now req db)) ->
  fst (app now req db) = db.
Proof.
  intros Hv. destruct req as [|limit offset|i|body|i body|i]; try done.
  - rewrite app_POST.
    destruct (json_title body) as [t|], (json_content body) as [c|]; try done.
    destruct (NoteBase t c); [|done].
    destruct (INT64_MAX <=? largest_rowid db); [done|].
    cbn. unfold HTTP_201_CREATED. lia.
  - destruct (from_option title_ok true (json_title body)
              && from_option content_ok true (json_content body)) eqn:Ev.
    2:{ intros _. by apply app_PUT_otherwise; left. }
    apply andb_true_iff in Ev as [Ht Hc].
    destruct (is_int64 i) eqn:Hi.
    2:{ intros _. by apply app_PUT_otherwise; right; right; left. }
    destruct (select_by_id (notes db) i) as [r|] eqn:Es.
    2:{ intros _. by apply app_PUT_otherwise; right; right; right. }
    destruct (json_title body) as [t|] eqn:Et.
    + rewrite <- Et in *.
      rewrite (app_PUT_found now i body db r) by (done || left; by rewrite Et).
      cbn. unfold HTTP_200_OK. lia.
    + destruct (json_content body) as [c|] eqn:Ec.
      * rewrite <- Et, <- Ec in *.
        rewrite (app_PUT_found now i body db r) by (done || right; by rewrite Ec).
        cbn. unfold HTTP_200_OK. lia.
      * intros _. by apply app_PUT_otherwise; right; left.
  - rewrite app_DELETE. destruct (is_int64 i); [|done].
    destruct (select_by_id (notes db) i); [|done].
    cbn. unfold HTTP_204_NO_CONTENT. lia.
Qed.

Lemma failed_request_changes_nothing_witness :
  fst (app 4 (PUT_note 8 (mkJsonBody (Some "T"%string) None))
         (mkDatabase [mkRow 1 "a" "x" 1 1] 1))
  = mkDatabase [mkRow 1 "a" "x" 1 1] 1.
Proof.
  apply (failed_request_changes_nothing 4
           (PUT_note 8 (mkJsonBody (Some "T"%string) None))
           (mkDatabase [mkRow 1 "a" "x" 1 1] 1)).
  - repeat constructor.
  - vm_compute. discriminate.
Defined.

(** ** List and get agree *)

Lemma select_by_id_primary_key (tbl : list Row) r :
  NoDup (row_id <$> tbl) -> r ∈ tbl -> select_by_id tbl (row_id r) = Some r.
Proof.
  intros Hnd Hr.
  destruct (select_by_id tbl (row_id r)) as [r'|] eqn:E.
  - apply select_by_id_Some in E as [Hr' Hid]. f_equal.
    by apply (NoDup_row_id_inj tbl).
  - exfalso. by apply (proj1 (select_by_id_None _ _) E r).
Qed.

(** X14.  GET of the list and GET of one note agree.  On a table of valid
    rows with distinct 64-bit ids, every note of a page is what GET of its
    id returns; and when the page starts at offset 0 and the table has no
    more rows than the limit, every note GET returns is on the page. *)
Theorem listed_notes_are_the_stored_notes (now : Z) (limit offset : option Z)
    (db : database) :
  valid_rows db ->
  primary_key db ->
  int64_rowids db ->
  1 <= default 100 limit <= 500 ->
  0 <= default 0 offset <= INT64_MAX ->
  exists ns,
    app now (GET_notes limit offset) db = (db, mkResponse HTTP_200_OK (NoteList ns))
    /\ (forall n, n ∈ ns -> get_note (note_id n) db = Return n)
    /\ (default 0 offset = 0 ->
        Z.of_nat (length (notes db)) <= default 100 limit ->
        forall i n, get_note i db = Return n -> n ∈ ns).
Proof.
  intros Hv Hpk Hi Hl Ho. eexists. split; [by apply app_GET_notes|]. split.
  - intros n Hn. apply subseteq_take, subseteq_drop in Hn.
    apply list_elem_of_fmap in Hn as (r & -> & Hr).
    rewrite merge_sort_Permutation in Hr. cbn [note_of_row note_id].
    rewrite get_note_unfold, select_by_id_primary_key by done.
    unfold valid_rows, int64_rowids in *.
    eapply Forall_forall in Hv; [|exact Hr]. eapply Forall_forall in Hi; [|exact Hr].
    cbn beta in Hv, Hi. by rewrite Hi, _row_to_note_valid.
  - intros Ho0 Hlen i n (r & _ & Hr & _ & ->)%get_note_Return.
    apply select_by_id_Some in Hr as [Hr _]. rewrite Ho0.
    change (Z.to_nat 0) with 0%nat. rewrite drop_0, take_ge.
    + apply list_elem_of_fmap. exists r. split; [done|].
      by rewrite merge_sort_Permutation.
    + rewrite length_fmap.
      rewrite (Permutation_length (merge_sort_Permutation order_by (notes db))). lia.
Qed.

Lemma listed_notes_are_the_stored_notes_witness :
  exists ns,
    app 9 (GET_notes (Some 2) None)
        (mkDatabase [mkRow 1 "a" "x" 1 1; mkRow 2 "b" "y" 2 2] 2)
    = (mkDatabase [mkRow 1 "a" "x" 1 1; mkRow 2 "b" "y" 2 2] 2,
       mkResponse HTTP_200_OK (NoteList ns))
    /\ mkNote 1 "a" "x" 1 1 ∈ ns.
Proof.
  destruct (listed_notes_are_the_stored_notes 9 (Some 2) None
              (mkDatabase [mkRow 1 "a" "x" 1 1; mkRow 2 "b" "y" 2 2] 2))
    as (ns & Happ & _ & Hall).
  - repeat constructor.
  - unfold primary_key. cbn. apply NoDup_ListNoDup. repeat constructor; cbn; intuition lia.
  - repeat constructor.
  - cbn. lia.
  - cbn. unfold INT64_MAX. lia.
  - exists ns. split; [exact Happ|].
    apply (Hall eq_refl) with 1; [cbn; lia | reflexivity].
Defined.

(** ** Create, then delete *)



(** ** Update, then list *)



